(** * Fine-tuning data notebook: validation, token accounting, cost estimate

    A shallow embedding of [create-training-data.ipynb].  The notebook is a
    sequence of cells acting on Python values (dicts, lists, strings and
    integers); a cell either completes or raises.  Dicts are finite maps
    with string keys, Python integers are [Z], and an exception is an
    explicit result. *)

From Stdlib Require Import Ascii DecimalString DecimalN.
From stdpp Require Import gmap strings list fin_maps pretty sorting.

#[local] Open Scope Z_scope.
#[local] Set Warnings "-register-all".

(** ** Python values *)

(** The values [json.loads] produces, which are also the values the
    notebook builds by hand.  Strings are sequences of characters. *)
Inductive json : Type :=
  | JNull
  | JBool (b : bool)
  | JInt (n : Z)
  | JFloat (literal : string)
  | JStr (s : string)
  | JList (items : list json)
  | JDict (entries : gmap string json).

(** ** Exceptions and results *)

Inductive exn : Type :=
  | KeyError (key : string)
  | TypeError
  | ZeroDivisionError
  | JSONDecodeError
  | ValueError.

Inductive result (A : Type) : Type :=
  | Ok (a : A)
  | Raise (e : exn).
Arguments Ok {A} a.
Arguments Raise {A} e.

#[global] Instance result_ret : MRet result := λ A a, Ok a.
#[global] Instance result_bind : MBind result := λ A B f r,
  match r with Ok a => f a | Raise e => Raise e end.
#[global] Instance result_fmap : FMap result := λ A B f r,
  match r with Ok a => Ok (f a) | Raise e => Raise e end.

Definition is_ok {A} (r : result A) : bool :=
  match r with Ok _ => true | Raise _ => false end.

(** ** The built-in operations the notebook uses *)

Module Py.

(** [o[key]] for a string key. *)
Definition getitem (o : json) (key : string) : result json :=
  match o with
  | JDict entries =>
      match entries !! key with
      | Some v => Ok v
      | None => Raise (KeyError key)
      end
  | _ => Raise TypeError
  end.

(** The elements [for x in o] visits.  A dict yields its keys and a
    string its characters; in both cases every element is a string. *)
Definition iter (o : json) : result (list json) :=
  match o with
  | JList items => Ok items
  | JDict entries => Ok (JStr <$> (map_to_list entries).*1)
  | JStr s => Ok ((λ c, JStr (String c EmptyString)) <$> String.list_ascii_of_string s)
  | _ => Raise TypeError
  end.

(** [len(o)]. *)
Definition len (o : json) : result Z :=
  match o with
  | JList items => Ok (Z.of_nat (length items))
  | JDict entries => Ok (Z.of_nat (size entries))
  | JStr s => Ok (Z.of_nat (String.length s))
  | _ => Raise TypeError
  end.

(** [v == s] for a string literal [s]. *)
Definition eq_str (v : json) (s : string) : bool :=
  match v with
  | JStr s' => bool_decide (s' = s)
  | _ => false
  end.

(** [a // b] on integers: floor division, raising on a zero divisor. *)
Definition floordiv (a b : Z) : result Z :=
  if decide (b = 0) then Raise ZeroDivisionError else Ok (a `div` b).

(** [sum(xs)]: start from 0 and add the elements from left to right. *)
Definition sum (xs : list Z) : Z := foldl Z.add 0 xs.

(** [True] is 1 and [False] is 0 when summed. *)
Definition of_bool (b : bool) : Z := if b then 1 else 0.

End Py.

(** The sum of [f x] over the elements [x] of a list. *)
Definition sum_over {A} (f : A → Z) (xs : list A) : Z :=
  foldr (λ x acc, f x + acc) 0 xs.

(** ** Cell 6: cost estimation *)

Definition MAX_TOKENS_PER_EXAMPLE : Z := 4096.
Definition TARGET_EPOCHS : Z := 3.
Definition MIN_TARGET_EXAMPLES : Z := 100.
Definition MAX_TARGET_EXAMPLES : Z := 25000.
Definition MIN_DEFAULT_EPOCHS : Z := 1.
Definition MAX_DEFAULT_EPOCHS : Z := 25.

(** The value of [n_epochs] after the [if]/[elif] on the number of training
    examples. *)
Definition n_epochs (n_train_examples : Z) : result Z :=
  if decide (n_train_examples * TARGET_EPOCHS < MIN_TARGET_EXAMPLES) then
    q ← Py.floordiv MIN_TARGET_EXAMPLES n_train_examples;
    Ok (MAX_DEFAULT_EPOCHS `min` q)
  else if decide (n_train_examples * TARGET_EPOCHS > MAX_TARGET_EXAMPLES) then
    q ← Py.floordiv MAX_TARGET_EXAMPLES n_train_examples;
    Ok (MIN_DEFAULT_EPOCHS `max` q)
  else Ok TARGET_EPOCHS.

(** [sum(min(MAX_TOKENS_PER_EXAMPLE, length) for length in convo_lens)] *)
Definition n_billing_tokens_in_dataset (convo_lens : list Z) : Z :=
  Py.sum ((λ length, MAX_TOKENS_PER_EXAMPLE `min` length) <$> convo_lens).

(** What the cell reports: the epochs, the billable tokens and the product
    printed on its last line. *)
Record CostEstimate : Type := mkCostEstimate {
  ce_n_epochs : Z;
  ce_n_billing_tokens : Z;
  ce_charged_tokens : Z
}.

Definition cost_estimation (dataset : list json) (convo_lens : list Z)
  : result CostEstimate :=
  let n_train_examples := Z.of_nat (length dataset) in
  e ← n_epochs n_train_examples;
  let billing := n_billing_tokens_in_dataset convo_lens in
  Ok (mkCostEstimate e billing (e * billing)).

(** [sum(l > 4096 for l in convo_lens)] *)
Definition n_too_long (convo_lens : list Z) : Z :=
  Py.sum ((λ l, Py.of_bool (bool_decide (l > 4096))) <$> convo_lens).

(** ** Cell 5: warnings and token counts *)

(** The accumulators the loop over the dataset updates. *)
Record TokenCounts : Type := mkTokenCounts {
  n_missing_system : Z;
  n_missing_user : Z;
  n_messages : list Z;
  convo_lens : list Z;
  assistant_message_lens : list Z
}.

(** The accumulators before the loop starts. *)
Definition no_counts : TokenCounts := mkTokenCounts 0 0 [] [] [].

(** [any(message["role"] == role for message in messages)], for the elements
    [messages] yields: the scan stops at the first match, and a lookup that
    fails before a match raises. *)
Fixpoint any_role (role : string) (messages : list json) : result bool :=
  match messages with
  | [] => Ok false
  | message :: rest =>
      r ← Py.getitem message "role";
      if Py.eq_str r role then Ok true else any_role role rest
  end.

Section token_counts.

(** The two counters come from the module [token_counter]; the loop only
    calls them on the messages of a record. *)
Variable num_tokens_from_messages : json → result Z.
Variable num_assistant_tokens_from_messages : json → result Z.

(** One pass of the body of [for ex in dataset]. *)
Definition count_example (acc : TokenCounts) (ex : json) : result TokenCounts :=
  messages ← Py.getitem ex "messages";
  system_scan ← Py.iter messages;
  has_system ← any_role "system" system_scan;
  let missing_system :=
    if (has_system : bool) then n_missing_system acc else n_missing_system acc + 1 in
  user_scan ← Py.iter messages;
  has_user ← any_role "user" user_scan;
  let missing_user :=
    if (has_user : bool) then n_missing_user acc else n_missing_user acc + 1 in
  n ← Py.len messages;
  total ← num_tokens_from_messages messages;
  assistant ← num_assistant_tokens_from_messages messages;
  Ok (mkTokenCounts missing_system missing_user
        (n_messages acc ++ [n])
        (convo_lens acc ++ [total])
        (assistant_message_lens acc ++ [assistant])).

(** [for ex in dataset: ...] from the given accumulators. *)
Fixpoint count_examples (acc : TokenCounts) (dataset : list json)
  : result TokenCounts :=
  match dataset with
  | [] => Ok acc
  | ex :: rest => acc' ← count_example acc ex; count_examples acc' rest
  end.

(** The loop of the cell, from fresh accumulators. *)
Definition token_counts (dataset : list json) : result TokenCounts :=
  count_examples no_counts dataset.

(** A record the loop can process without a failed lookup: a dict whose
    [messages] entry is a list of dicts that all have a [role] entry. *)
Definition has_role_key (message : json) : bool :=
  match message with
  | JDict entries => bool_decide (is_Some (entries !! "role"))
  | _ => false
  end.

Definition well_shaped (ex : json) : bool :=
  match ex with
  | JDict entries =>
      match entries !! "messages" with
      | Some (JList messages) => forallb has_role_key messages
      | _ => false
      end
  | _ => false
  end.

(** Both counters return on the messages of the record. *)
Definition countable (ex : json) : bool :=
  match Py.getitem ex "messages" with
  | Ok messages =>
      is_ok (num_tokens_from_messages messages)
      && is_ok (num_assistant_tokens_from_messages messages)
  | Raise _ => true
  end.

(** The total the counter gives for the messages of a record. *)
Definition total_of (ex : json) (total : Z) : Prop :=
  ∃ messages,
    Py.getitem ex "messages" = Ok messages
    ∧ num_tokens_from_messages messages = Ok total.

End token_counts.

(** The messages of a record, and whether one of them has the given role;
    both are total, and a value that holds no list of messages has none. *)
Definition messages_of (ex : json) : list json :=
  match ex with
  | JDict entries =>
      match entries !! "messages" with
      | Some (JList messages) => messages
      | _ => []
      end
  | _ => []
  end.

Definition role_is (role : string) (message : json) : bool :=
  match message with
  | JDict entries =>
      match entries !! "role" with
      | Some v => Py.eq_str v role
      | None => false
      end
  | _ => false
  end.

Definition lacks_role (role : string) (ex : json) : bool :=
  negb (existsb (role_is role) (messages_of ex)).

(** ** Cell 2: building an exchange from a row *)

(** A row of the reviews table: the text each of the three columns the
    notebook reads is formatted to inside an f-string. *)
Record Row : Type := mkRow {
  Review : string;
  Rating : string;
  Sentiment : string
}.

Definition dquote : string := String "034"%char "".
Definition newline : string := String "010"%char "".

Definition system_message : string :=
  "You are a restaurant review analyzer. Analyze the sentiment in the review provided. Output the rating value and the sentiment as JSON .".

Definition create_user_message (row : Row) : string :=
  "Review: " +:+ Review row.

Definition create_assistant_message (row : Row) : string :=
  "{" +:+ dquote +:+ "rating" +:+ dquote +:+ ": " +:+ Rating row +:+ ", "
  +:+ dquote +:+ "Sentiment" +:+ dquote +:+ ": " +:+ dquote +:+ Sentiment row
  +:+ dquote +:+ "}" +:+ newline.

(** The dict literal [{"role": role, "content": content}]. *)
Definition message_dict (role content : string) : json :=
  JDict (<["content" := JStr content]> (<["role" := JStr role]> ∅)).

Definition create_full_exchange (row : Row) : json :=
  let messages := [] in
  let messages := messages ++ [message_dict "system" system_message] in
  let user_message := create_user_message row in
  let messages := messages ++ [message_dict "user" user_message] in
  let assistant_message := create_assistant_message row in
  let messages := messages ++ [message_dict "assistant" assistant_message] in
  JDict (<["messages" := JList messages]> ∅).

(** ** Cells 3 and 4: writing and reading the line-delimited file *)

(** The lines [for line in f] yields for a file opened in text mode: a line
    ends at a line feed, a carriage return or the pair of them, each read as
    one line feed, and a last line may lack its terminator. *)
Fixpoint file_lines (content : string) : list string :=
  match content with
  | EmptyString => []
  | String c rest =>
      if Ascii.eqb c "010" then newline :: file_lines rest
      else if Ascii.eqb c "013" then
        match rest with
        | String c' rest' =>
            if Ascii.eqb c' "010" then newline :: file_lines rest'
            else newline :: file_lines rest
        | EmptyString => [newline]
        end
      else
        match file_lines rest with
        | [] => [String c EmptyString]
        | line :: lines => String c line :: lines
        end
  end.

(** The text holds neither a line feed nor a carriage return. *)
Fixpoint no_line_break (text : string) : bool :=
  match text with
  | EmptyString => true
  | String c rest =>
      negb (Ascii.eqb c "010") && negb (Ascii.eqb c "013") && no_line_break rest
  end.

Section jsonl.

(** [json.dumps] and [json.loads] of the standard library. *)
Variable dumps : json → string.
Variable loads : string → result json.

(** The loop of [write_jsonl]; [out] is what the file holds so far and
    [out.write] appends to it. *)
Fixpoint write_records (out : string) (data_list : list json) : string :=
  match data_list with
  | [] => out
  | ddict :: rest =>
      let jout := dumps ddict +:+ newline in
      write_records (out +:+ jout) rest
  end.

(** The content of the file once [write_jsonl] returns; the file is opened
    for writing, so it starts empty. *)
Definition write_jsonl (data_list : list json) : string :=
  write_records "" data_list.

(** One line per record, in the order of the list. *)
Fixpoint record_lines (data_list : list json) : string :=
  match data_list with
  | [] => ""
  | ddict :: rest => dumps ddict +:+ newline +:+ record_lines rest
  end.

(** [[json.loads(line) for line in f]] *)
Fixpoint load_lines (lines : list string) : result (list json) :=
  match lines with
  | [] => Ok []
  | line :: rest =>
      record ← loads line;
      records ← load_lines rest;
      Ok (record :: records)
  end.

Definition load_dataset (content : string) : result (list json) :=
  load_lines (file_lines content).

(** What the round trip needs of the two library functions on a record:
    its text stays on one line, and reading that line gives it back. *)
Definition transported (ddict : json) : Prop :=
  no_line_break (dumps ddict) = true
  ∧ loads (dumps ddict +:+ newline) = Ok ddict.

End jsonl.

(** ** The codec: [json.dumps] and [json.loads]

    The two library functions as the notebook calls them, with their default
    options: separators [", "] and [": "], every character outside the
    printable ASCII range escaped, the constants [NaN], [Infinity] and
    [-Infinity] allowed, and the C scanner of CPython 3.11, which the
    notebook names.

    A text is held in UTF-8, as the string literals of this file are: an
    ASCII character is one element of the string and any other character the
    two to four elements of its encoding.  The notebook reads the file as
    UTF-8, and what [json.dumps] writes is ASCII.  A float is held by its
    literal, so two literals of one number are two values here.  The
    interpreter's recursion limit is not modelled. *)
Module Codec.

Definition backslash : ascii := "092"%char.

Definition hex_digit (n : N) : ascii :=
  match n with
  | 0 => "0" | 1 => "1" | 2 => "2" | 3 => "3" | 4 => "4" | 5 => "5"
  | 6 => "6" | 7 => "7" | 8 => "8" | 9 => "9" | 10 => "a" | 11 => "b"
  | 12 => "c" | 13 => "d" | 14 => "e" | _ => "f"
  end%N%char.

Definition hex_value (c : ascii) : option N :=
  let n := N_of_ascii c in
  if (48 <=? n)%N && (n <=? 57)%N then Some (n - 48)%N
  else if (97 <=? n)%N && (n <=? 102)%N then Some (n - 87)%N
  else if (65 <=? n)%N && (n <=? 70)%N then Some (n - 55)%N
  else None.

(** *** Characters and their UTF-8 encoding *)

(** A byte [10xxxxxx], which continues a sequence. *)
Definition continuation (c : ascii) : bool :=
  (128 <=? N_of_ascii c)%N && (N_of_ascii c <? 192)%N.

Definition low_bits (c : ascii) : N := (N_of_ascii c - 128)%N.

(** The code points of a text.  A byte that starts no sequence counts as
    the code point of its own value. *)
Fixpoint code_points (s : string) : list N :=
  match s with
  | EmptyString => []
  | String c rest =>
      let n := N_of_ascii c in
      let alone := n :: code_points rest in
      if (n <? 192)%N then alone
      else
        match rest with
        | String c1 rest1 =>
            if negb (continuation c1) then alone
            else if (n <? 224)%N then
              ((n - 192) * 64 + low_bits c1)%N :: code_points rest1
            else
              match rest1 with
              | String c2 rest2 =>
                  if negb (continuation c2) then alone
                  else if (n <? 240)%N then
                    (((n - 224) * 64 + low_bits c1) * 64 + low_bits c2)%N
                    :: code_points rest2
                  else
                    match rest2 with
                    | String c3 rest3 =>
                        if negb (continuation c3) then alone
                        else
                          ((((n - 240) * 64 + low_bits c1) * 64
                            + low_bits c2) * 64 + low_bits c3)%N
                          :: code_points rest3
                    | EmptyString => alone
                    end
              | EmptyString => alone
              end
        | EmptyString => alone
        end
  end.

(** The UTF-8 encoding of a code point; a surrogate code, which a Python
    string may hold on its own, takes the three-byte form. *)
Definition encode_point (n : N) : string :=
  if (n <? 128)%N then String (ascii_of_N n) ""
  else if (n <? 2048)%N then
    String (ascii_of_N (192 + n / 64))
      (String (ascii_of_N (128 + n mod 64)) "")
  else if (n <? 65536)%N then
    String (ascii_of_N (224 + n / 4096))
      (String (ascii_of_N (128 + n / 64 mod 64))
        (String (ascii_of_N (128 + n mod 64)) ""))
  else
    String (ascii_of_N (240 + n / 262144))
      (String (ascii_of_N (128 + n / 4096 mod 64))
        (String (ascii_of_N (128 + n / 64 mod 64))
          (String (ascii_of_N (128 + n mod 64)) ""))).

(** Well-formed UTF-8: shortest forms only, no surrogate code and nothing
    beyond U+10FFFF.  These are the texts a file read as UTF-8 can hold. *)
Fixpoint utf8 (s : string) : bool :=
  match s with
  | EmptyString => true
  | String c rest =>
      let n := N_of_ascii c in
      if (n <? 128)%N then utf8 rest
      else if (n <? 194)%N then false
      else
        match rest with
        | String c1 rest1 =>
            let n1 := N_of_ascii c1 in
            if (n <? 224)%N then continuation c1 && utf8 rest1
            else
              match rest1 with
              | String c2 rest2 =>
                  if (n <? 240)%N then
                    continuation c1 && continuation c2
                    && (if (n =? 224)%N then (160 <=? n1)%N else true)
                    && (if (n =? 237)%N then (n1 <? 160)%N else true)
                    && utf8 rest2
                  else
                    match rest2 with
                    | String c3 rest3 =>
                        (n <? 245)%N
                        && continuation c1 && continuation c2
                        && continuation c3
                        && (if (n =? 240)%N then (144 <=? n1)%N else true)
                        && (if (n =? 244)%N then (n1 <? 144)%N else true)
                        && utf8 rest3
                    | EmptyString => false
                    end
              | EmptyString => false
              end
        | EmptyString => false
        end
  end.

(** *** Writing *)

(** The escape [\uXXXX] of a code below 65536, in lower-case digits. *)
Definition u_escape (n : N) : string :=
  String backslash (String "u"
    (String (hex_digit (n / 4096)) (String (hex_digit (n / 256 mod 16))
      (String (hex_digit (n / 16 mod 16)) (String (hex_digit (n mod 16)) ""))))).

(** The text of one character inside a string literal; a character beyond
    U+FFFF is written as a pair of surrogate escapes. *)
Definition escape_point (n : N) : string :=
  if (n =? 34)%N then String backslash dquote
  else if (n =? 92)%N then String backslash (String backslash "")
  else if (n =? 10)%N then String backslash "n"
  else if (n =? 13)%N then String backslash "r"
  else if (n =? 9)%N then String backslash "t"
  else if (n =? 8)%N then String backslash "b"
  else if (n =? 12)%N then String backslash "f"
  else if (32 <=? n)%N && (n <=? 126)%N then String (ascii_of_N n) ""
  else if (n <? 65536)%N then u_escape n
  else
    u_escape (55296 + (n - 65536) / 1024)
    +:+ u_escape (56320 + (n - 65536) mod 1024).

Definition escape (s : string) : string :=
  foldr (λ n text, escape_point n +:+ text) "" (code_points s).

Definition quote (s : string) : string := dquote +:+ escape s +:+ dquote.

Fixpoint join (parts : list string) : string :=
  match parts with
  | [] => ""
  | p :: ps =>
      match ps with
      | [] => p
      | _ :: _ => p +:+ ", " +:+ join ps
      end
  end.

(** [repr] of an integer: a minus sign for a negative one, and the decimal
    digits of its absolute value. *)
Definition digits (n : Z) : string :=
  NilEmpty.string_of_uint (N.to_uint (Z.abs_N n)).

Definition repr (n : Z) : string :=
  if (n <? 0)%Z then "-" +:+ digits n else digits n.

(** The text of a value.  A dict is written in the order in which its keys
    were inserted; a map does not record it, so the order is a parameter:
    [order] arranges the entries, each a key with the text of its value,
    which it is given in the order in which the map lists them. *)
Fixpoint dumps (order : list (string * string) → list (string * string))
    (v : json) : string :=
  match v with
  | JNull => "null"
  | JBool true => "true"
  | JBool false => "false"
  | JInt n => repr n
  | JFloat literal => literal
  | JStr s => quote s
  | JList items => "[" +:+ join (dumps order <$> items) +:+ "]"
  | JDict entries =>
      "{" +:+ join ((λ '(k, text), quote k +:+ ": " +:+ text)
                      <$> order (map_to_list (dumps order <$> entries))) +:+ "}"
  end.

(** *** Reading *)

(** The characters of a string literal after its opening quote, up to the
    closing one, and the text that follows.  An escape of a high surrogate
    followed by one of a low surrogate is one character. *)
Definition hex_code (h1 h2 h3 h4 : ascii) : option N :=
  a ← hex_value h1; b ← hex_value h2; c ← hex_value h3; d ← hex_value h4;
  Some (((a * 16 + b) * 16 + c) * 16 + d)%N.

Definition high_surrogate (n : N) : bool := (55296 <=? n)%N && (n <? 56320)%N.
Definition low_surrogate (n : N) : bool := (56320 <=? n)%N && (n <? 57344)%N.

Fixpoint unescape (s : string) : option (string * string) :=
  match s with
  | EmptyString => None
  | String c rest =>
      if Ascii.eqb c "034" then Some ("", rest)
      else if Ascii.eqb c backslash then
        match rest with
        | String e rest' =>
            let literal (c' : ascii) :=
              '(body, after) ← unescape rest'; Some (String c' body, after) in
            if Ascii.eqb e "034" then literal "034"%char
            else if Ascii.eqb e backslash then literal backslash
            else if Ascii.eqb e "/" then literal "/"%char
            else if Ascii.eqb e "n" then literal "010"%char
            else if Ascii.eqb e "r" then literal "013"%char
            else if Ascii.eqb e "t" then literal "009"%char
            else if Ascii.eqb e "b" then literal "008"%char
            else if Ascii.eqb e "f" then literal "012"%char
            else if Ascii.eqb e "u" then
              match rest' with
              | String h1 (String h2 (String h3 (String h4 rest''))) =>
                  n ← hex_code h1 h2 h3 h4;
                  let lone :=
                    '(body, after) ← unescape rest'';
                    Some (encode_point n +:+ body, after) in
                  if high_surrogate n then
                    match rest'' with
                    | String b (String u (String l1 (String l2
                        (String l3 (String l4 rest3))))) =>
                        if Ascii.eqb b backslash && Ascii.eqb u "u" then
                          m ← hex_code l1 l2 l3 l4;
                          if low_surrogate m then
                            '(body, after) ← unescape rest3;
                            Some (encode_point
                                    (65536 + (n - 55296) * 1024 + (m - 56320))
                                  +:+ body, after)
                          else lone
                        else lone
                    | _ => lone
                    end
                  else lone
              | _ => None
              end
            else None
        | EmptyString => None
        end
      else if (N_of_ascii c <? 32)%N then None
      else '(body, after) ← unescape rest; Some (String c body, after)
  end.

Fixpoint skip_ws (s : string) : string :=
  match s with
  | String c rest =>
      if Ascii.eqb c " " || Ascii.eqb c "009" || Ascii.eqb c "010"
         || Ascii.eqb c "013"
      then skip_ws rest else s
  | EmptyString => s
  end.

Fixpoint strip_prefix (word s : string) : option string :=
  match word, s with
  | EmptyString, _ => Some s
  | String w word', String c rest =>
      if Ascii.eqb w c then strip_prefix word' rest else None
  | String _ _, EmptyString => None
  end.

(** The words the scanner reads as they stand. *)
Definition constants : list (string * json) :=
  [("null", JNull); ("true", JBool true); ("false", JBool false);
   ("NaN", JFloat "NaN"); ("Infinity", JFloat "Infinity");
   ("-Infinity", JFloat "-Infinity")].

Fixpoint scan_constant (words : list (string * json)) (s : string)
  : option (json * string) :=
  match words with
  | [] => None
  | (word, v) :: words =>
      match strip_prefix word s with
      | Some after => Some (v, after)
      | None => scan_constant words s
      end
  end.

Definition is_digit (c : ascii) : bool :=
  (48 <=? N_of_ascii c)%N && (N_of_ascii c <=? 57)%N.

(** The digits a text starts with, and what follows them. *)
Fixpoint span_digits (s : string) : string * string :=
  match s with
  | String c rest =>
      if is_digit c then
        let '(ds, after) := span_digits rest in (String c ds, after)
      else ("", s)
  | EmptyString => ("", "")
  end.

(** The integer part of a number: a zero, or digits that start with
    another one. *)
Definition integer_part (s : string) : option (string * string) :=
  match s with
  | String c rest =>
      if Ascii.eqb c "0" then Some ("0", rest)
      else if is_digit c then
        let '(ds, after) := span_digits rest in Some (String c ds, after)
      else None
  | EmptyString => None
  end.

(** A point followed by at least one digit, if the text starts so. *)
Definition fraction_part (s : string) : string * string :=
  match s with
  | String c (String d rest) =>
      if Ascii.eqb c "." && is_digit d then
        let '(ds, after) := span_digits rest in
        (String c (String d ds), after)
      else ("", s)
  | _ => ("", s)
  end.

(** An [e] or [E], a sign or none and at least one digit, if the text
    starts so. *)
Definition exponent_part (s : string) : string * string :=
  match s with
  | String e rest =>
      if Ascii.eqb e "e" || Ascii.eqb e "E" then
        let '(sign, rest') :=
          match rest with
          | String g rest' =>
              if Ascii.eqb g "+" || Ascii.eqb g "-"
              then (String g "", rest') else ("", rest)
          | EmptyString => ("", rest)
          end in
        match span_digits rest' with
        | (String d ds, after) => (String e (sign +:+ String d ds), after)
        | (EmptyString, _) => ("", s)
        end
      else ("", s)
  | EmptyString => ("", s)
  end.

(** Python 3.11 refuses to convert an integer of more than 4300 digits to
    or from text. *)
Definition max_str_digits : nat := 4300.

(** [int] of a text of digits. *)
Definition int_of_digits (ds : string) : Z :=
  match NilEmpty.uint_of_string ds with
  | Some d => Z.of_N (N.of_uint d)
  | None => 0
  end.

(** A number: a minus sign or none, the integer part, and as much of a
    fraction and of an exponent as the text has; it is read as a float if
    it has either and as an integer otherwise. *)
Definition scan_number (s : string) : result (json * string) :=
  let '(sign, s1) :=
    match s with
    | String c rest => if Ascii.eqb c "-" then ("-", rest) else ("", s)
    | EmptyString => ("", s)
    end in
  match integer_part s1 with
  | None => Raise JSONDecodeError
  | Some (ds, s2) =>
      let '(fraction, s3) := fraction_part s2 in
      let '(exponent, s4) := exponent_part s3 in
      match fraction +:+ exponent with
      | EmptyString =>
          if decide (max_str_digits < String.length ds)%nat
          then Raise ValueError
          else
            match sign with
            | EmptyString => Ok (JInt (int_of_digits ds), s4)
            | String _ _ => Ok (JInt (- int_of_digits ds), s4)
            end
      | String _ _ => Ok (JFloat (sign +:+ ds +:+ fraction +:+ exponent), s4)
      end
  end.

(** A value, the remaining elements of a list and the remaining members
    of a dict; the fuel bounds the number of nested calls. *)
Fixpoint parse_value (fuel : nat) (s : string) : result (json * string) :=
  match fuel with
  | O => Raise JSONDecodeError
  | S fuel =>
      match skip_ws s with
      | String c rest =>
          if Ascii.eqb c "034" then
            match unescape rest with
            | Some (text, after) => Ok (JStr text, after)
            | None => Raise JSONDecodeError
            end
          else if Ascii.eqb c "[" then
            match skip_ws rest with
            | String c' rest' =>
                if Ascii.eqb c' "]" then Ok (JList [], rest')
                else parse_elements fuel [] (String c' rest')
            | EmptyString => Raise JSONDecodeError
            end
          else if Ascii.eqb c "{" then
            match skip_ws rest with
            | String c' rest' =>
                if Ascii.eqb c' "}" then Ok (JDict ∅, rest')
                else parse_members fuel ∅ (String c' rest')
            | EmptyString => Raise JSONDecodeError
            end
          else
            match scan_constant constants (String c rest) with
            | Some found => Ok found
            | None => scan_number (String c rest)
            end
      | EmptyString => Raise JSONDecodeError
      end
  end
with parse_elements (fuel : nat) (seen : list json) (s : string)
  : result (json * string) :=
  match fuel with
  | O => Raise JSONDecodeError
  | S fuel =>
      '(v, after) ← parse_value fuel s;
      match skip_ws after with
      | String c rest =>
          if Ascii.eqb c "," then parse_elements fuel (seen ++ [v]) rest
          else if Ascii.eqb c "]" then Ok (JList (seen ++ [v]), rest)
          else Raise JSONDecodeError
      | EmptyString => Raise JSONDecodeError
      end
  end
with parse_members (fuel : nat) (seen : gmap string json) (s : string)
  : result (json * string) :=
  match fuel with
  | O => Raise JSONDecodeError
  | S fuel =>
      match skip_ws s with
      | String c rest =>
          if Ascii.eqb c "034" then
            match unescape rest with
            | Some (key, after) =>
                match skip_ws after with
                | String c' rest' =>
                    if Ascii.eqb c' ":" then
                      '(v, after') ← parse_value fuel rest';
                      match skip_ws after' with
                      | String c'' rest'' =>
                          if Ascii.eqb c'' ","
                          then parse_members fuel (<[key := v]> seen) rest''
                          else if Ascii.eqb c'' "}"
                          then Ok (JDict (<[key := v]> seen), rest'')
                          else Raise JSONDecodeError
                      | EmptyString => Raise JSONDecodeError
                      end
                    else Raise JSONDecodeError
                | EmptyString => Raise JSONDecodeError
                end
            | None => Raise JSONDecodeError
            end
          else Raise JSONDecodeError
      | EmptyString => Raise JSONDecodeError
      end
  end.

(** The value a text denotes; the text may start and end with white space.
    A call of the scanner reads at least one character before the next one
    nested in it, and a list or a dict reads two for each element, so two
    units of fuel for each character are never used up. *)
Definition loads (s : string) : result json :=
  '(v, after) ← parse_value (2 * String.length s + 2) s;
  match skip_ws after with
  | EmptyString => Ok v
  | String _ _ => Raise JSONDecodeError
  end.

(** *** The values a line carries exactly *)

(** A float other than [NaN], which no value equals: a number with a
    fraction or an exponent, or an infinity. *)
Definition float_literal (literal : string) : bool :=
  bool_decide (literal = "Infinity") || bool_decide (literal = "-Infinity")
  || match scan_number literal with
     | Ok (JFloat token, EmptyString) => bool_decide (token = literal)
     | _ => false
     end.

(** Integers within the digits limit, the floats above, well-formed text
    as strings and as keys, and lists and dicts of such values. *)
Fixpoint representable (v : json) : bool :=
  match v with
  | JNull | JBool _ => true
  | JInt n => bool_decide (String.length (digits n) ≤ max_str_digits)%nat
  | JFloat literal => float_literal literal
  | JStr s => utf8 s
  | JList items => forallb representable items
  | JDict entries =>
      forallb (λ '(k, ok), utf8 k && ok)
        (map_to_list (representable <$> entries))
  end.

(** A character that is neither a surrogate code nor beyond U+10FFFF. *)
Definition scalar (n : N) : bool :=
  ((n <? 55296)%N || (57344 <=? n)%N) && (n <? 1114112)%N.

(** What may follow a number: nothing, or a character that no number
    holds. *)
Definition ends_number (rest : string) : bool :=
  match rest with
  | EmptyString => true
  | String c _ =>
      negb (is_digit c || Ascii.eqb c "." || Ascii.eqb c "e"
            || Ascii.eqb c "E" || Ascii.eqb c "+" || Ascii.eqb c "-")
  end.

(** What the text of a value starts with: neither white space nor a
    closing bracket. *)
Definition starts_value (c : ascii) : bool :=
  negb (Ascii.eqb c " " || Ascii.eqb c "009" || Ascii.eqb c "010"
        || Ascii.eqb c "013" || Ascii.eqb c "]").

(** The nesting depth of a value. *)
Fixpoint depth (v : json) : nat :=
  match v with
  | JList items => S (max_list (depth <$> items))
  | JDict entries => S (max_list (map_to_list (depth <$> entries)).*2)
  | _ => O
  end.

(** What the round trip shows of a value: its text stays on one line,
    starts as a value does, and is read back as the value, whatever follows
    it that does not go on with a number. *)
Definition carried (order : list (string * string) → list (string * string))
    (v : json) : Prop :=
  no_line_break (dumps order v) = true
  ∧ (∃ c body, dumps order v = String c body ∧ starts_value c = true)
  ∧ ∀ fuel rest,
      (2 * String.length (dumps order v) ≤ fuel)%nat →
      ends_number rest = true →
      parse_value fuel (dumps order v +:+ rest) = Ok (v, rest).

(** The text of a member of a dict. *)
Definition member_text (order : list (string * string) → list (string * string))
    (entry : string * json) : string :=
  quote entry.1 +:+ ": " +:+ dumps order entry.2.

End Codec.

(** The order in which the dict literals of the notebook insert their keys:
    [role] comes before [content]. *)
Definition insertion_order (entries : list (string * string))
  : list (string * string) :=
  filter (λ entry, entry.1 = "role") entries
  ++ filter (λ entry, ¬ entry.1 = "role") entries.

(** An order lists the entries it is given, each once. *)
Definition arranges (order : list (string * string) → list (string * string))
  : Prop :=
  ∀ entries, order entries ≡ₚ entries.

(** ** The format validator (module [check_format_errors]) *)

Inductive reason : Type :=
  | MissingMessagesList
  | UnrecognizedTopLevelKey (name : string)
  | MessageNotObject
  | MissingRole
  | UnrecognizedRole (value : json)
  | MissingContent
  | ContentWithUnrecognizedKeys
  | UnrecognizedKey (name : string)
  | MissingAssistantMessage.

(** An issue: the conversation it is about, the message and the field when
    it has one, and why. *)
Record Issue : Type := mkIssue {
  issue_conversation : nat;
  issue_message : option nat;
  issue_field : option string;
  issue_reason : reason
}.

Section format_validator.

(** The keys a message may carry in place of, or next to, its content. *)
Variable alternatives : list string.

Definition roles : list string := ["system"; "user"; "assistant"].

Definition recognized : list string := "role" :: "content" :: alternatives.

(** Modelled from the spec: the per-message checks of
    [check_format_errors], whose module is not part of the sources
    (checks 3 to 5 of the validator's contract). *)
Definition check_message (i j : nat) (message : json) : list Issue :=
  match message with
  | JDict entries =>
      let keys := (map_to_list entries).*1 in
      let unrecognized := filter (λ k, k ∉ recognized) keys in
      let has_content := bool_decide (is_Some (entries !! "content")) in
      let has_alternative :=
        existsb (λ k, bool_decide (is_Some (entries !! k))) alternatives in
      match entries !! "role" with
      | None => [mkIssue i (Some j) (Some "role") MissingRole]
      | Some (JStr r) =>
          if decide (r ∈ roles) then []
          else [mkIssue i (Some j) (Some "role") (UnrecognizedRole (JStr r))]
      | Some v => [mkIssue i (Some j) (Some "role") (UnrecognizedRole v)]
      end
      ++ (if negb has_content && negb has_alternative
          then [mkIssue i (Some j) (Some "content") MissingContent]
          else if has_content && negb (bool_decide (unrecognized = []))
          then [mkIssue i (Some j) (Some "content") ContentWithUnrecognizedKeys]
          else [])
      ++ ((λ k, mkIssue i (Some j) (Some k) (UnrecognizedKey k)) <$> unrecognized)
  | _ => [mkIssue i (Some j) None MessageNotObject]
  end.

(** Modelled from the spec: the checks [check_format_errors] applies to
    one conversation (checks 1, 2 and 6, around the per-message ones). *)
Definition check_conversation (i : nat) (ex : json) : list Issue :=
  let missing_assistant :=
    if existsb (role_is "assistant") (messages_of ex) then []
    else [mkIssue i None None MissingAssistantMessage] in
  match ex with
  | JDict entries =>
      match entries !! "messages" with
      | Some (JList _) => []
      | _ => [mkIssue i None (Some "messages") MissingMessagesList]
      end
      ++ ((λ k, mkIssue i None (Some k) (UnrecognizedTopLevelKey k))
            <$> filter (λ k, k ≠ "messages") (map_to_list entries).*1)
      ++ mjoin (imap (check_message i) (messages_of ex))
      ++ missing_assistant
  | _ => mkIssue i None (Some "messages") MissingMessagesList :: missing_assistant
  end.

(** Modelled from the spec: the scan of [check_format_errors] over the
    dataset, which appends the issues of each conversation to a local
    accumulator and moves on to the next one. *)
Fixpoint check_from (index : nat) (issues : list Issue) (dataset : list json)
  : list Issue :=
  match dataset with
  | [] => issues
  | ex :: rest =>
      check_from (S index) (issues ++ check_conversation index ex) rest
  end.

(** Modelled from the spec: [check_format_errors], absent from the
    sources; it returns the issues of the whole dataset. *)
Definition check_format_errors (dataset : list json) : list Issue :=
  check_from 0%nat [] dataset.

End format_validator.

(** ** The token counters (module [token_counter]) *)

Section token_counter.

(** The counting strategy: the tokens of a text and the two overheads. *)
Variable count : string → Z.
Variable tokens_per_message : Z.
Variable trailing_tokens : Z.

(** The strategy prices text only. *)
Definition count_text (v : json) : result Z :=
  match v with
  | JStr s => Ok (count s)
  | _ => Raise TypeError
  end.

(** Modelled from the spec: the loop of [num_tokens_from_messages] over
    the messages, adding to the running total. *)
Fixpoint add_message_tokens (num_tokens : Z) (messages : list json)
  : result Z :=
  match messages with
  | [] => Ok num_tokens
  | message :: rest =>
      let num_tokens := num_tokens + tokens_per_message in
      role ← Py.getitem message "role";
      r ← count_text role;
      let num_tokens := num_tokens + r in
      content ← Py.getitem message "content";
      c ← count_text content;
      let num_tokens := num_tokens + c in
      add_message_tokens num_tokens rest
  end.

(** Modelled from the spec: [num_tokens_from_messages] of the module
    [token_counter], absent from the sources: the per-message overhead,
    the role and the content of every message, and the trailing
    overhead once. *)
Definition num_tokens_from_messages (messages : json) : result Z :=
  items ← Py.iter messages;
  num_tokens ← add_message_tokens 0 items;
  Ok (num_tokens + trailing_tokens).

(** Modelled from the spec: the loop of
    [num_assistant_tokens_from_messages]. *)
Fixpoint add_assistant_tokens (num_tokens : Z) (messages : list json)
  : result Z :=
  match messages with
  | [] => Ok num_tokens
  | message :: rest =>
      role ← Py.getitem message "role";
      if Py.eq_str role "assistant" then
        content ← Py.getitem message "content";
        c ← count_text content;
        add_assistant_tokens (num_tokens + (tokens_per_message + c)) rest
      else add_assistant_tokens num_tokens rest
  end.

(** Modelled from the spec: [num_assistant_tokens_from_messages] of the
    module [token_counter], absent from the sources: the per-message
    overhead and the content of the assistant messages only. *)
Definition num_assistant_tokens_from_messages (messages : json) : result Z :=
  items ← Py.iter messages;
  add_assistant_tokens 0 items.

End token_counter.

(** A strategy for worked examples: a quarter of the length, plus one. *)
Definition toy_count (text : string) : Z :=
  Z.of_nat (String.length text) `div` 4 + 1.

(** ** The cells in sequence *)

Record Report : Type := mkReport {
  errors : list Issue;
  counts : TokenCounts;
  too_long : Z;
  cost : CostEstimate
}.

Section notebook.

Variable check_errors : list json → list Issue.
Variable count_tokens : json → result Z.
Variable count_assistant_tokens : json → result Z.

(** Cells 4 to 6 on a loaded dataset. *)
Definition run_cells (dataset : list json) : result Report :=
  let errors := check_errors dataset in
  counts ← token_counts count_tokens count_assistant_tokens dataset;
  let too_long := n_too_long (convo_lens counts) in
  cost ← cost_estimation dataset (convo_lens counts);
  Ok (mkReport errors counts too_long cost).

End notebook.

(** ** Sample data *)

Definition sample_row : Row := mkRow "The food was wonderful!" "5" "Great".

Definition sample_exchange : json := create_full_exchange sample_row.

(** A conversation without a system message. *)
Definition sample_without_system : json :=
  JDict (<["messages" := JList [message_dict "user" "Review: good";
                                message_dict "assistant" "fine"]]> ∅).

(** A record without a [messages] entry, and one whose first message has no
    [role] entry. *)
Definition sample_without_messages : json :=
  JDict (<["prompt" := JStr "Review: good"]> ∅).

Definition sample_without_role : json :=
  JDict (<["messages" :=
            JList [JDict (<["content" := JStr "Review: good"]> ∅)]]> ∅).

(** The counters for the toy strategy, with 3 tokens per message and 3
    trailing tokens, and with a per-message overhead of 1500 tokens. *)
Definition sample_counter : json → result Z :=
  num_tokens_from_messages toy_count 3 3.

Definition sample_assistant_counter : json → result Z :=
  num_assistant_tokens_from_messages toy_count 3.

Definition heavy_counter : json → result Z :=
  num_tokens_from_messages toy_count 1500 3.

Definition heavy_assistant_counter : json → result Z :=
  num_assistant_tokens_from_messages toy_count 1500.

Definition sample_dataset : list json :=
  [sample_exchange; sample_without_system; sample_exchange;
   sample_without_system; sample_without_system].

(** The worked conversation of the testable properties. *)
Definition worked_conversation : list (string * string) :=
  [("system", "Sys"); ("user", "Review: good");
   ("assistant", "{" +:+ dquote +:+ "rating" +:+ dquote +:+ ":5}")].

(** The messages of a conversation given by its roles and contents. *)
Definition messages_json (conversation : list (string * string)) : json :=
  JList ((λ m, message_dict m.1 m.2) <$> conversation).

(** A conversation whose messages hold more than text: characters beyond
    ASCII, a training weight, a score and a function call. *)
Definition sample_weighted : json :=
  JDict (<["messages" := JList [
    JDict (<["role" := JStr "user"]>
          (<["content" := JStr "Review: café, 12 € 😀"]>
          (<["weight" := JInt 1]> ∅)));
    JDict (<["role" := JStr "assistant"]>
          (<["function_call" :=
               JDict (<["name" := JStr "rate"]>
                     (<["arguments" := JList [JInt (-5); JFloat "0.75";
                                              JBool true; JNull]]> ∅))]>
          (<["weight" := JInt 0]> ∅)))]]> ∅).

(** ** Cell 3: the training and the validation set *)

(** [data.iloc[start:stop]] on the rows of the table, for bounds that are
    not negative: the rows from [start] up to, and without, [stop], as far
    as the table goes. *)
Definition iloc (start stop : nat) (data : list Row) : list Row :=
  take (stop - start) (drop start data).

Definition training_df (data : list Row) : list Row := iloc 0 100 data.
Definition validation_df (data : list Row) : list Row := iloc 100 200 data.

(** [df.apply(create_full_exchange, axis=1).tolist()]: the exchange of each
    row, in the order of the rows. *)
Definition training_data (data : list Row) : list json :=
  create_full_exchange <$> training_df data.

Definition validation_data (data : list Row) : list json :=
  create_full_exchange <$> validation_df data.

(** A table with as many copies of the sample row. *)
Definition sample_table (rows : nat) : list Row := replicate rows sample_row.

(** ** Accumulators of two passes *)

(** The accumulators after a pass that went on from those of another: the
    tallies add up and the lists follow each other. *)
Definition merge_counts (first second : TokenCounts) : TokenCounts :=
  mkTokenCounts
    (n_missing_system first + n_missing_system second)
    (n_missing_user first + n_missing_user second)
    (n_messages first ++ n_messages second)
    (convo_lens first ++ convo_lens second)
    (assistant_message_lens first ++ assistant_message_lens second).

Definition is_dict (v : json) : bool :=
  match v with JDict _ => true | _ => false end.

(** A counter that accepts every value. *)
Definition flat_counter (messages : json) : result Z := Ok 1.

(** * Properties *)

(** ** Results and sums *)

Lemma bind_Ok {A B} (r : result A) (f : A → result B) (b : B) :
  r ≫= f = Ok b ↔ ∃ a, r = Ok a ∧ f a = Ok b.
Proof.
  destruct r as [a|e]; simpl; split.
  - intros H. by exists a.
  - by intros (a' & [= ->] & H).
  - intros H; discriminate H.
  - by intros (a' & [=] & _).
Qed.

Lemma foldl_add_shift (acc : Z) (xs : list Z) :
  foldl Z.add acc xs = acc + foldl Z.add 0 xs.
Proof.
  revert acc. induction xs as [|x xs IH]; intros acc; simpl.
  - lia.
  - rewrite (IH (acc + x)), (IH (0 + x)). lia.
Qed.

Lemma sum_cons (x : Z) (xs : list Z) : Py.sum (x :: xs) = x + Py.sum xs.
Proof. unfold Py.sum. simpl. rewrite foldl_add_shift. lia. Qed.

Lemma sum_fmap {A} (f : A → Z) (xs : list A) :
  Py.sum (f <$> xs) = sum_over f xs.
Proof.
  induction xs as [|x xs IH]; [done|].
  rewrite fmap_cons, sum_cons, IH. done.
Qed.

Lemma sum_over_app {A} (f : A → Z) (xs ys : list A) :
  sum_over f (xs ++ ys) = sum_over f xs + sum_over f ys.
Proof. induction xs as [|x xs IH]; simpl; lia. Qed.

Lemma sum_over_indicator {A} (P : A → Prop) `{!∀ x, Decision (P x)}
    (xs : list A) :
  sum_over (λ x, Py.of_bool (bool_decide (P x))) xs
  = Z.of_nat (length (filter P xs)).
Proof.
  induction xs as [|x xs IH]; [done|].
  rewrite filter_cons. simpl. rewrite IH.
  destruct (decide (P x)) as [HP|HP].
  - rewrite bool_decide_eq_true_2 by done. simpl. lia.
  - rewrite bool_decide_eq_false_2 by done. simpl. lia.
Qed.

(** ** Cost estimation *)

Lemma n_epochs_positive (n : Z) :
  0 < n →
  n_epochs n =
    Ok (if decide (n * 3 < 100) then 25 `min` (100 `div` n)
        else if decide (n * 3 > 25000) then 1 `max` (25000 `div` n)
        else 3).
Proof.
  intros Hn. unfold n_epochs, Py.floordiv, TARGET_EPOCHS, MIN_TARGET_EXAMPLES,
    MAX_TARGET_EXAMPLES, MIN_DEFAULT_EPOCHS, MAX_DEFAULT_EPOCHS.
  destruct (decide (n = 0)) as [->|_]; [lia|].
  repeat case_decide; done.
Qed.

Lemma n_epochs_bounds (n e : Z) : 0 ≤ n → n_epochs n = Ok e → 1 ≤ e ≤ 25.
Proof.
  intros Hn. destruct (decide (n = 0)) as [->|Hz]; [done|].
  rewrite n_epochs_positive by lia. intros [= <-].
  repeat case_decide; try lia.
  - assert (3 ≤ 100 `div` n) by (apply Z.div_le_lower_bound; lia). lia.
  - assert (25000 `div` n < 3) by (apply Z.div_lt_upper_bound; lia). lia.
Qed.

Lemma billing_tokens_sum (convo_lens : list Z) :
  n_billing_tokens_in_dataset convo_lens
  = sum_over (λ l, 4096 `min` l) convo_lens.
Proof. unfold n_billing_tokens_in_dataset. apply sum_fmap. Qed.

Lemma cost_estimation_nonempty (dataset : list json) (convo_lens : list Z) :
  dataset ≠ [] →
  ∃ e, n_epochs (Z.of_nat (length dataset)) = Ok e
    ∧ cost_estimation dataset convo_lens
      = Ok (mkCostEstimate e (n_billing_tokens_in_dataset convo_lens)
              (e * n_billing_tokens_in_dataset convo_lens)).
Proof.
  intros Hne. unfold cost_estimation.
  assert (0 < Z.of_nat (length dataset)) as Hpos
    by (destruct dataset; [done | simpl; lia]).
  rewrite (n_epochs_positive _ Hpos). eexists. split; reflexivity.
Qed.

(** C1: on a dataset of n > 0 examples the cost-estimation step computes
    min(25, 100 // n) effective epochs when 3 n < 100, max(1, 25000 // n)
    when 3 n > 25000 and 3 otherwise; 10 examples give 10 epochs and 30000
    examples give 1. *)
Theorem effective_epoch_count (dataset : list json) (convo_lens : list Z)
    (n : Z) :
  Z.of_nat (length dataset) = n →
  0 < n →
  ∃ est, cost_estimation dataset convo_lens = Ok est
    ∧ (n * 3 < 100 → ce_n_epochs est = 25 `min` (100 `div` n))
    ∧ (n * 3 > 25000 → ce_n_epochs est = 1 `max` (25000 `div` n))
    ∧ (100 ≤ n * 3 ≤ 25000 → ce_n_epochs est = 3)
    ∧ (n = 10 → ce_n_epochs est = 10)
    ∧ (n = 30000 → ce_n_epochs est = 1).
Proof.
  intros Hlen Hpos. unfold cost_estimation. rewrite Hlen.
  rewrite (n_epochs_positive n Hpos). eexists. split; [reflexivity|].
  simpl. repeat split; intros H.
  - by rewrite decide_True.
  - rewrite decide_False by lia. by rewrite decide_True.
  - rewrite !decide_False by lia. done.
  - rewrite H. reflexivity.
  - rewrite H. reflexivity.
Qed.

Lemma effective_epoch_count_witness :
  ∃ est, cost_estimation (replicate 10 JNull) (replicate 10 28) = Ok est
    ∧ ce_n_epochs est = 10.
Proof.
  destruct (effective_epoch_count (replicate 10 JNull) (replicate 10 28) 10)
    as (est & Hest & _ & _ & _ & Hten & _); [reflexivity | lia |].
  exists est. split; [exact Hest | apply Hten; reflexivity].
Defined.

(** C2: the billable tokens are the sum over the conversations of
    min(4096, total token count), and the billed-token estimate is the
    effective epoch count times that sum; the step produces the estimate
    for every dataset that is not empty. *)
Theorem billed_token_estimate (dataset : list json) (convo_lens : list Z) :
  n_billing_tokens_in_dataset convo_lens
    = sum_over (λ l, 4096 `min` l) convo_lens
  ∧ (∀ est,
       cost_estimation dataset convo_lens = Ok est →
       n_epochs (Z.of_nat (length dataset)) = Ok (ce_n_epochs est)
       ∧ ce_n_billing_tokens est = sum_over (λ l, 4096 `min` l) convo_lens
       ∧ ce_charged_tokens est
         = ce_n_epochs est * sum_over (λ l, 4096 `min` l) convo_lens)
  ∧ (dataset ≠ [] → ∃ est, cost_estimation dataset convo_lens = Ok est).
Proof.
  split; [apply billing_tokens_sum|]. split.
  - intros est (e & He & [= <-])%bind_Ok. simpl.
    by rewrite billing_tokens_sum.
  - intros Hne.
    destruct (cost_estimation_nonempty dataset convo_lens Hne) as (e & _ & ->).
    by eexists.
Qed.

Lemma billed_token_estimate_witness :
  ∃ est, cost_estimation [JNull; JNull] [5000; 28] = Ok est
    ∧ ce_n_epochs est = 25
    ∧ ce_n_billing_tokens est = 4124
    ∧ ce_charged_tokens est = 103100.
Proof.
  destruct (billed_token_estimate [JNull; JNull] [5000; 28])
    as (_ & Hest & Hrun).
  destruct Hrun as [est Hrun]; [discriminate|].
  destruct (Hest est Hrun) as (Hep & Hbill & Hcharged).
  exists est. split; [exact Hrun|].
  assert (Ok (ce_n_epochs est) = Ok 25) as [= He]
    by (rewrite <- Hep; reflexivity).
  split; [exact He|]. rewrite Hcharged, Hbill, He. split; reflexivity.
Defined.

(** The empty dataset gets no estimate of zero billed tokens: the step
    does not return on it. *)
Lemma empty_dataset_not_guarded :
  ¬ ∃ est, cost_estimation [] [] = Ok est ∧ ce_charged_tokens est = 0.
Proof. intros (est & Hest & _). discriminate Hest. Qed.

(** C3: on the empty dataset the epoch scaling divides by zero examples
    without a guard: 0 * 3 < 100 selects the scale-up branch, the cell raises
    [ZeroDivisionError] whatever the token counts are and reports no
    estimate, although the billable tokens of no conversation sum to
    zero. *)
Theorem cost_estimation_empty_dataset (convo_lens : list Z) :
  n_epochs (Z.of_nat (length (@nil json))) = Raise ZeroDivisionError
  ∧ cost_estimation [] convo_lens = Raise ZeroDivisionError
  ∧ n_billing_tokens_in_dataset [] = 0.
Proof. repeat split. Qed.

Lemma too_long_count (convo_lens : list Z) :
  n_too_long convo_lens
  = Z.of_nat (length (filter (λ l, l > 4096) convo_lens)).
Proof.
  unfold n_too_long.
  rewrite (sum_fmap (λ l, Py.of_bool (bool_decide (l > 4096)))).
  apply (sum_over_indicator (λ l, l > 4096)).
Qed.

Lemma billing_keeps_too_long (convo_lens : list Z) :
  n_billing_tokens_in_dataset convo_lens
  = sum_over (λ l, l) (filter (λ l, ¬ l > 4096) convo_lens)
    + 4096 * n_too_long convo_lens.
Proof.
  rewrite billing_tokens_sum, too_long_count.
  induction convo_lens as [|l ls IH]; [done|].
  rewrite !filter_cons. simpl. rewrite IH.
  destruct (decide (l > 4096)) as [Hl|Hl].
  - rewrite decide_False by tauto. simpl. lia.
  - rewrite decide_True by done. simpl. lia.
Qed.

(** ** Warnings and token counts *)

Lemma sum_over_of_bool {A} (p : A → bool) (xs : list A) :
  sum_over (λ x, Py.of_bool (p x)) xs
  = Z.of_nat (length (filter (λ x, p x = true) xs)).
Proof.
  induction xs as [|x xs IH]; [done|].
  simpl. rewrite IH. destruct (p x) eqn:Hp.
  - rewrite filter_cons_True by done. simpl. lia.
  - rewrite filter_cons_False by congruence. simpl. lia.
Qed.

Lemma any_role_existsb (role : string) (messages : list json) (b : bool) :
  any_role role messages = Ok b → b = existsb (role_is role) messages.
Proof.
  induction messages as [|m ms IH]; simpl.
  - by intros [= <-].
  - intros (r & Hr & Hscan)%bind_Ok.
    destruct m as [| | | | | |entries]; try discriminate Hr.
    simpl in Hr. destruct (entries !! "role") as [v|] eqn:Hv; [|discriminate Hr].
    injection Hr as ->. simpl. rewrite Hv.
    destruct (Py.eq_str r role); [by injection Hscan as <- | by apply IH].
Qed.

(** A scan that completes found what the messages of the record hold: a
    value that is iterable without being a list of messages has no element
    the scan could pass. *)
Lemma any_role_scan (role : string) (ex messages : json) (scan : list json)
    (b : bool) :
  Py.getitem ex "messages" = Ok messages →
  Py.iter messages = Ok scan →
  any_role role scan = Ok b →
  b = existsb (role_is role) (messages_of ex).
Proof.
  intros Hget Hiter Hany.
  destruct ex as [| | | | | |entries]; try discriminate Hget.
  simpl in Hget. unfold messages_of.
  destruct (entries !! "messages") as [v|]; [|discriminate Hget].
  injection Hget as ->.
  destruct messages as [| | | |s|items|keys]; try discriminate Hiter;
    injection Hiter as <-.
  - destruct (String.list_ascii_of_string s); simpl in Hany;
      [by injection Hany as <- | discriminate Hany].
  - by apply any_role_existsb.
  - destruct ((map_to_list keys).*1); simpl in Hany;
      [by injection Hany as <- | discriminate Hany].
Qed.

Section token_counts_facts.

Variable num_tokens : json → result Z.
Variable num_assistant_tokens : json → result Z.

#[local] Abbreviation count_example :=
  (count_example num_tokens num_assistant_tokens).
#[local] Abbreviation count_examples :=
  (count_examples num_tokens num_assistant_tokens).
#[local] Abbreviation token_counts :=
  (token_counts num_tokens num_assistant_tokens).
#[local] Abbreviation countable :=
  (countable num_tokens num_assistant_tokens).
#[local] Abbreviation total_of :=
  (total_of num_tokens).

Lemma count_example_Ok (acc acc' : TokenCounts) (ex : json) :
  count_example acc ex = Ok acc' →
  n_missing_system acc'
    = n_missing_system acc + Py.of_bool (lacks_role "system" ex)
  ∧ n_missing_user acc'
    = n_missing_user acc + Py.of_bool (lacks_role "user" ex)
  ∧ ∃ total,
      total_of ex total ∧ convo_lens acc' = convo_lens acc ++ [total].
Proof.
  unfold count_example.
  intros (messages & Hget & H)%bind_Ok.
  apply bind_Ok in H as (scan1 & Hscan1 & H).
  apply bind_Ok in H as (has_system & Hsys & H).
  apply bind_Ok in H as (scan2 & Hscan2 & H).
  apply bind_Ok in H as (has_user & Husr & H).
  apply bind_Ok in H as (n & Hn & H).
  apply bind_Ok in H as (total & Htotal & H).
  apply bind_Ok in H as (assistant & Hassistant & H).
  injection H as <-. simpl.
  apply (any_role_scan _ _ _ _ _ Hget Hscan1) in Hsys as ->.
  apply (any_role_scan _ _ _ _ _ Hget Hscan2) in Husr as ->.
  unfold lacks_role.
  repeat split; try (destruct (existsb _ _); simpl; lia).
  exists total. split; [by exists messages | done].
Qed.

Lemma count_examples_Ok (dataset : list json) (acc acc' : TokenCounts) :
  count_examples acc dataset = Ok acc' →
  n_missing_system acc'
    = n_missing_system acc
      + sum_over (λ ex, Py.of_bool (lacks_role "system" ex)) dataset
  ∧ n_missing_user acc'
    = n_missing_user acc
      + sum_over (λ ex, Py.of_bool (lacks_role "user" ex)) dataset
  ∧ ∃ totals,
      Forall2 total_of dataset totals
      ∧ convo_lens acc' = convo_lens acc ++ totals.
Proof.
  revert acc. induction dataset as [|ex rest IH]; intros acc; simpl.
  - intros [= <-]. repeat split; try lia.
    exists []. split; [constructor | by rewrite app_nil_r].
  - intros (mid & Hex & Hrest)%bind_Ok.
    apply count_example_Ok in Hex as (Hs & Hu & total & Htotal & Hl).
    apply IH in Hrest as (-> & -> & totals & Htotals & ->).
    rewrite Hs, Hu, Hl. repeat split; try lia.
    exists (total :: totals). split; [by constructor|].
    by rewrite <- app_assoc.
Qed.

Lemma count_examples_app (front back : list json) (acc : TokenCounts) :
  count_examples acc (front ++ back)
  = count_examples acc front ≫= λ mid, count_examples mid back.
Proof.
  revert acc. induction front as [|ex front IH]; intros acc; [done|].
  simpl. destruct (count_example acc ex) as [mid|e]; [apply IH | done].
Qed.

Lemma any_role_total (role : string) (messages : list json) :
  forallb has_role_key messages = true →
  ∃ b, any_role role messages = Ok b.
Proof.
  induction messages as [|m ms IH]; simpl; [by eexists|].
  intros [Hm Hms]%andb_prop.
  destruct m as [| | | | | |entries]; try discriminate Hm.
  simpl in Hm. apply bool_decide_eq_true in Hm as [v Hv].
  simpl. rewrite Hv. simpl.
  destruct (Py.eq_str v role); [by eexists | by apply IH].
Qed.

Lemma count_example_total (acc : TokenCounts) (ex : json) :
  well_shaped ex = true → countable ex = true →
  ∃ acc', count_example acc ex = Ok acc'.
Proof.
  intros Hshape Hcount. unfold count_example.
  destruct ex as [| | | | | |entries]; try discriminate Hshape.
  unfold well_shaped in Hshape. unfold countable in Hcount.
  simpl in *.
  destruct (entries !! "messages") as [[| | | | |messages|]|];
    try discriminate Hshape.
  simpl.
  destruct (any_role_total "system" messages Hshape) as [b1 ->].
  destruct (any_role_total "user" messages Hshape) as [b2 ->].
  simpl.
  apply andb_prop in Hcount as [Ht Ha].
  destruct (num_tokens (JList messages)); [|discriminate Ht].
  destruct (num_assistant_tokens (JList messages)); [|discriminate Ha].
  simpl. by eexists.
Qed.

Lemma count_examples_total (dataset : list json) (acc : TokenCounts) :
  forallb well_shaped dataset = true →
  forallb countable dataset = true →
  ∃ acc', count_examples acc dataset = Ok acc'.
Proof.
  revert acc. induction dataset as [|ex rest IH]; intros acc; simpl.
  - by eexists.
  - intros [Hex Hrest]%andb_prop [Hc Hcs]%andb_prop.
    destruct (count_example_total acc ex Hex Hc) as [mid ->]. simpl.
    by apply IH.
Qed.

(** A record whose lookup fails stops the loop, whatever follows it. *)
Lemma count_examples_raises (front rest : list json) (ex : json) (e : exn) :
  forallb well_shaped front = true →
  forallb countable front = true →
  (∀ acc, count_example acc ex = Raise e) →
  token_counts (front ++ ex :: rest) = Raise e.
Proof.
  intros Hshape Hcount Hex. unfold token_counts.
  rewrite count_examples_app.
  destruct (count_examples_total front no_counts Hshape Hcount) as [mid ->].
  simpl. by rewrite Hex.
Qed.

End token_counts_facts.

Section cells_facts.

Variable check_errors : list json → list Issue.
Variable num_tokens : json → result Z.
Variable num_assistant_tokens : json → result Z.

Lemma token_counts_exact (dataset : list json) (c : TokenCounts) :
  token_counts num_tokens num_assistant_tokens dataset = Ok c →
  n_missing_system c
    = Z.of_nat (length (filter (λ ex, lacks_role "system" ex = true) dataset))
  ∧ n_missing_user c
    = Z.of_nat (length (filter (λ ex, lacks_role "user" ex = true) dataset))
  ∧ Forall2 (total_of num_tokens) dataset (convo_lens c).
Proof.
  unfold token_counts. intros Hc.
destruct (count_examples_Ok _ _ _ _ _ Hc) as (Hs & Hu & totals & Htotals & Hl).
  rewrite Hs, Hu, Hl, !sum_over_of_bool. simpl. done.
Qed.

Lemma run_cells_Ok (dataset : list json) (r : Report) :
  run_cells check_errors num_tokens num_assistant_tokens dataset = Ok r →
  ∃ c e,
    token_counts num_tokens num_assistant_tokens dataset = Ok c
    ∧ n_epochs (Z.of_nat (length dataset)) = Ok e
    ∧ r = mkReport (check_errors dataset) c (n_too_long (convo_lens c))
            (mkCostEstimate e (n_billing_tokens_in_dataset (convo_lens c))
               (e * n_billing_tokens_in_dataset (convo_lens c))).
Proof.
  unfold run_cells. intros (c & Hc & Hrest)%bind_Ok.
  apply bind_Ok in Hrest as (est & Hest & [= <-]).
  apply bind_Ok in Hest as (e & He & [= <-]).
  by exists c, e.
Qed.

End cells_facts.

(** C4: the truncation count is the number of conversations whose total
    token count is strictly above 4096, so a conversation of exactly 4096
    tokens is not counted and 2 such conversations among 5 give 2; every
    conversation, flagged or not, keeps its entry in the token counts and
    is billed, a flagged one for 4096 tokens. *)
Theorem truncation_count (num_tokens num_assistant_tokens : json → result Z)
    (dataset : list json) :
  (∀ convo_lens,
     n_too_long convo_lens
     = Z.of_nat (length (filter (λ l, l > 4096) convo_lens)))
  ∧ n_too_long [4096] = 0
  ∧ n_too_long [4097] = 1
  ∧ (∀ convo_lens,
       length convo_lens = 5%nat →
       length (filter (λ l, l > 4096) convo_lens) = 2%nat →
       n_too_long convo_lens = 2)
  ∧ (∀ convo_lens,
       n_billing_tokens_in_dataset convo_lens
       = sum_over (λ l, l) (filter (λ l, ¬ l > 4096) convo_lens)
         + 4096 * n_too_long convo_lens)
  ∧ (∀ c,
       token_counts num_tokens num_assistant_tokens dataset = Ok c →
       Forall2 (total_of num_tokens) dataset (convo_lens c)
       ∧ length (convo_lens c) = length dataset)
  ∧ (forallb well_shaped dataset = true →
     forallb (countable num_tokens num_assistant_tokens) dataset = true →
     ∃ c, token_counts num_tokens num_assistant_tokens dataset = Ok c)
  ∧ (∀ check_errors r,
       run_cells check_errors num_tokens num_assistant_tokens dataset = Ok r →
       token_counts num_tokens num_assistant_tokens dataset = Ok (counts r)
       ∧ too_long r = n_too_long (convo_lens (counts r))
       ∧ ce_n_billing_tokens (cost r)
         = n_billing_tokens_in_dataset (convo_lens (counts r))).
Proof.
  split; [apply too_long_count|]. do 2 (split; [reflexivity|]).
  split; [intros lens _ Htwo; by rewrite too_long_count, Htwo|].
  split; [apply billing_keeps_too_long|].
  split; [|split].
  - intros c (_ & _ & Htotals)%token_counts_exact.
    split; [exact Htotals|]. symmetry. by eapply Forall2_length.
  - intros Hshape Hcount.
    exact (count_examples_total _ _ dataset no_counts Hshape Hcount).
  - intros check_errors r Hrun.
    apply run_cells_Ok in Hrun as (c & e & Hc & _ & ->). by simpl.
Qed.

Lemma truncation_count_witness :
  ∃ c, token_counts heavy_counter heavy_assistant_counter sample_dataset = Ok c
    ∧ convo_lens c = [4562; 3014; 4562; 3014; 3014]
    ∧ n_too_long (convo_lens c) = 2.
Proof.
  destruct (truncation_count heavy_counter heavy_assistant_counter
              sample_dataset) as (_ & _ & _ & Htwo & _ & _ & Hrun & _).
  destruct Hrun as [c Hc]; [reflexivity..|].
  exists c. split; [exact Hc|].
  assert (convo_lens c = [4562; 3014; 4562; 3014; 3014]) as Hlens.
  { vm_compute in Hc. injection Hc as <-. reflexivity. }
  split; [exact Hlens|]. apply Htwo; by rewrite Hlens.
Defined.

(** C7: the loop counts exactly the conversations without a message of role
    "system" and, separately, those without a message of role "user"; it
    completes on every dataset of well-shaped records the counters accept,
    and the two tallies leave the issues reported by the validator as they
    are. *)
Theorem missing_field_tally (num_tokens num_assistant_tokens : json → result Z)
    (dataset : list json) :
  (∀ c,
     token_counts num_tokens num_assistant_tokens dataset = Ok c →
     n_missing_system c
       = Z.of_nat (length (filter (λ ex, lacks_role "system" ex = true) dataset))
     ∧ n_missing_user c
       = Z.of_nat (length (filter (λ ex, lacks_role "user" ex = true) dataset)))
  ∧ (forallb well_shaped dataset = true →
     forallb (countable num_tokens num_assistant_tokens) dataset = true →
     ∃ c, token_counts num_tokens num_assistant_tokens dataset = Ok c)
  ∧ (∀ check_errors r,
       run_cells check_errors num_tokens num_assistant_tokens dataset = Ok r →
       token_counts num_tokens num_assistant_tokens dataset = Ok (counts r)
       ∧ errors r = check_errors dataset).
Proof.
  split; [|split].
  - intros c (Hs & Hu & _)%token_counts_exact. by split.
  - intros Hshape Hcount.
    exact (count_examples_total _ _ dataset no_counts Hshape Hcount).
  - intros check_errors r Hrun.
    apply run_cells_Ok in Hrun as (c & e & Hc & _ & ->). by simpl.
Qed.

Lemma missing_field_tally_witness :
  ∃ c, token_counts sample_counter sample_assistant_counter sample_dataset = Ok c
    ∧ n_missing_system c = 3
    ∧ n_missing_user c = 0.
Proof.
  destruct (missing_field_tally sample_counter sample_assistant_counter
              sample_dataset) as (Hexact & Hrun & _).
  destruct Hrun as [c Hc]; [reflexivity..|].
  destruct (Hexact c Hc) as [Hs Hu].
  exists c. split; [exact Hc|]. split; [exact Hs | exact Hu].
Defined.

(** C10: the loop completes on a dataset whose records are dicts with a
    list of messages that are dicts with a role (and whose messages the
    counters accept), but a record without a [messages] entry, or a first
    message without a [role] entry, makes it raise [KeyError]: no issue is
    recorded and the record is not skipped, whatever comes after it. *)
Theorem token_counts_lookup_errors
    (num_tokens num_assistant_tokens : json → result Z) :
  (∀ dataset,
     forallb well_shaped dataset = true →
     forallb (countable num_tokens num_assistant_tokens) dataset = true →
     ∃ c, token_counts num_tokens num_assistant_tokens dataset = Ok c)
  ∧ (∀ front entries rest,
       forallb well_shaped front = true →
       forallb (countable num_tokens num_assistant_tokens) front = true →
       entries !! "messages" = None →
       token_counts num_tokens num_assistant_tokens
         (front ++ JDict entries :: rest) = Raise (KeyError "messages"))
  ∧ (∀ front entries (message : gmap string json) later rest,
       forallb well_shaped front = true →
       forallb (countable num_tokens num_assistant_tokens) front = true →
       entries !! "messages" = Some (JList (JDict message :: later)) →
       message !! "role" = None →
       token_counts num_tokens num_assistant_tokens
         (front ++ JDict entries :: rest) = Raise (KeyError "role"))
  ∧ token_counts num_tokens num_assistant_tokens [sample_without_messages]
    = Raise (KeyError "messages")
  ∧ token_counts num_tokens num_assistant_tokens [sample_without_role]
    = Raise (KeyError "role").
Proof.
  assert (∀ entries acc,
    entries !! "messages" = None →
    count_example num_tokens num_assistant_tokens acc (JDict entries)
    = Raise (KeyError "messages")) as Hmessages.
  { intros entries acc Hnone. unfold count_example. simpl. by rewrite Hnone. }
  assert (∀ entries (message : gmap string json) later acc,
    entries !! "messages" = Some (JList (JDict message :: later)) →
    message !! "role" = None →
    count_example num_tokens num_assistant_tokens acc (JDict entries)
    = Raise (KeyError "role")) as Hrole.
  { intros entries message later acc Hsome Hnone. unfold count_example. simpl.
    rewrite Hsome. simpl. by rewrite Hnone. }
  split; [|split; [|split; [|split]]].
  - intros dataset Hshape Hcount.
    exact (count_examples_total _ _ dataset no_counts Hshape Hcount).
  - intros front entries rest Hshape Hcount Hnone.
    apply count_examples_raises; auto.
  - intros front entries message later rest Hshape Hcount Hsome Hnone.
    apply count_examples_raises; eauto.
  - apply (count_examples_raises _ _ [] []); [done..|].
    intros acc. by apply Hmessages.
  - apply (count_examples_raises _ _ [] []); [done..|].
    intros acc.
    by apply (Hrole _ (<["content" := JStr "Review: good"]> ∅) []).
Qed.

Lemma token_counts_lookup_errors_witness :
  (∃ c, token_counts sample_counter sample_assistant_counter sample_dataset
        = Ok c)
  ∧ token_counts sample_counter sample_assistant_counter
      ([sample_exchange] ++ sample_without_messages :: [sample_exchange])
    = Raise (KeyError "messages")
  ∧ token_counts sample_counter sample_assistant_counter
      ([sample_exchange] ++ sample_without_role :: [sample_exchange])
    = Raise (KeyError "role").
Proof.
  destruct (token_counts_lookup_errors sample_counter sample_assistant_counter)
    as (Htotal & Hmessages & Hrole & _).
  split; [|split].
  - apply Htotal; reflexivity.
  - apply Hmessages; reflexivity.
  - eapply Hrole; reflexivity.
Defined.

(** ** Building an exchange *)

(** C6: the exchange built from a row is a dict with the single key
    [messages], holding exactly three messages: a system, a user and an
    assistant message in this order, each a dict with exactly the keys
    [role] and [content]; so it is not empty, has exactly one system
    message and a user message, and the loop of the token counts finds
    nothing missing in it. *)
Theorem exchange_shape (row : Row) :
  ∃ entries system user assistant : gmap string json,
    create_full_exchange row = JDict entries
    ∧ dom entries = ({["messages"]} : gset string)
    ∧ entries !! "messages"
      = Some (JList [JDict system; JDict user; JDict assistant])
    ∧ dom system = ({["role"; "content"]} : gset string)
    ∧ system !! "role" = Some (JStr "system")
    ∧ system !! "content" = Some (JStr system_message)
    ∧ dom user = ({["role"; "content"]} : gset string)
    ∧ user !! "role" = Some (JStr "user")
    ∧ user !! "content" = Some (JStr (create_user_message row))
    ∧ dom assistant = ({["role"; "content"]} : gset string)
    ∧ assistant !! "role" = Some (JStr "assistant")
    ∧ assistant !! "content" = Some (JStr (create_assistant_message row))
    ∧ length (messages_of (create_full_exchange row)) = 3%nat
    ∧ length (filter (λ m, role_is "system" m = true)
                (messages_of (create_full_exchange row))) = 1%nat
    ∧ length (filter (λ m, role_is "user" m = true)
                (messages_of (create_full_exchange row))) = 1%nat
    ∧ length (filter (λ m, role_is "assistant" m = true)
                (messages_of (create_full_exchange row))) = 1%nat
    ∧ lacks_role "system" (create_full_exchange row) = false
    ∧ lacks_role "user" (create_full_exchange row) = false
    ∧ well_shaped (create_full_exchange row) = true.
Proof.
  unfold create_full_exchange, message_dict. simpl.
  do 4 eexists. split; [reflexivity|].
  repeat split; try reflexivity;
    rewrite ?dom_insert_L, ?dom_empty_L; set_solver.
Qed.

(** ** The line-delimited file *)

Lemma string_app_nil_r (s : string) : s +:+ "" = s.
Proof.
  induction s as [|c s IH]; [reflexivity|].
  change (String c s +:+ "") with (String c (s +:+ "")). by rewrite IH.
Qed.

Lemma string_app_assoc (s t u : string) : (s +:+ t) +:+ u = s +:+ t +:+ u.
Proof.
  induction s as [|c s IH]; [reflexivity|].
  change (String c ((s +:+ t) +:+ u) = String c (s +:+ t +:+ u)).
  by rewrite IH.
Qed.

Lemma file_lines_line (text rest : string) :
  no_line_break text = true →
  file_lines (text +:+ newline +:+ rest) = (text +:+ newline) :: file_lines rest.
Proof.
  induction text as [|c text IH]; intros Hbreak.
  - reflexivity.
  - simpl in Hbreak.
    apply andb_prop in Hbreak as [[Hlf Hcr]%andb_prop Htext].
    apply negb_true_iff in Hlf, Hcr.
    change (String c text +:+ newline +:+ rest)
      with (String c (text +:+ newline +:+ rest)).
    cbn [file_lines]. rewrite Hlf, Hcr, (IH Htext). reflexivity.
Qed.

Section jsonl_facts.

Variable dumps : json → string.
Variable loads : string → result json.

#[local] Abbreviation record_lines := (record_lines dumps).

Lemma write_records_lines (out : string) (data_list : list json) :
  write_records dumps out data_list = out +:+ record_lines data_list.
Proof.
  revert out. induction data_list as [|ddict rest IH]; intros out; simpl.
  - by rewrite string_app_nil_r.
  - by rewrite IH, !string_app_assoc.
Qed.

Lemma file_lines_records (data_list : list json) :
  Forall (λ ddict, no_line_break (dumps ddict) = true) data_list →
  file_lines (record_lines data_list)
  = (λ ddict, dumps ddict +:+ newline) <$> data_list.
Proof.
  induction 1 as [|ddict rest Hbreak _ IH]; [done|].
  simpl. by rewrite file_lines_line, IH.
Qed.

End jsonl_facts.

Module CodecFacts.
Import Codec.

Lemma app_cons (c : ascii) (s t : string) : String c s +:+ t = String c (s +:+ t).
Proof. reflexivity. Qed.

Lemma app_nil (t : string) : "" +:+ t = t.
Proof. reflexivity. Qed.

Ltac expose := rewrite ?string_app_assoc, ?app_cons, ?app_nil.

Ltac euclid := zify; Z.to_euclidean_division_equations; lia.

Lemma string_length_app (s t : string) :
  String.length (s +:+ t) = (String.length s + String.length t)%nat.
Proof.
  induction s as [|c s IH]; [reflexivity|].
  rewrite app_cons. simpl. by rewrite IH.
Qed.

Lemma byte_of_N (c : ascii) (n : N) : N_of_ascii c = n → ascii_of_N n = c.
Proof. intros <-. apply ascii_N_embedding. Qed.

Lemma ltb_true (a b : N) : (a < b)%N → (a <? b)%N = true.
Proof. apply N.ltb_lt. Qed.

Lemma ltb_false (a b : N) : (b ≤ a)%N → (a <? b)%N = false.
Proof. apply N.ltb_ge. Qed.

Lemma leb_true (a b : N) : (a ≤ b)%N → (a <=? b)%N = true.
Proof. apply N.leb_le. Qed.

Lemma leb_false (a b : N) : (b < a)%N → (a <=? b)%N = false.
Proof. apply N.leb_gt. Qed.

Lemma eqb_false (a b : N) : a ≠ b → (a =? b)%N = false.
Proof. apply N.eqb_neq. Qed.

Lemma continuation_range (c : ascii) :
  continuation c = true → (128 ≤ N_of_ascii c < 192)%N.
Proof.
  unfold continuation. intros [Ha Hb]%andb_prop.
  apply N.leb_le in Ha. apply N.ltb_lt in Hb. done.
Qed.

Lemma scalar_intro (n : N) :
  (n < 55296 ∨ 57344 ≤ n)%N → (n < 1114112)%N → scalar n = true.
Proof.
  intros Hn Hmax. unfold scalar. rewrite (ltb_true _ _ Hmax), andb_true_r.
  destruct Hn as [Hn|Hn];
    [by rewrite (ltb_true _ _ Hn) | by rewrite (leb_true _ _ Hn), orb_true_r].
Qed.

Lemma encode_point_1 (c : ascii) :
  (N_of_ascii c < 128)%N → encode_point (N_of_ascii c) = String c "".
Proof.
  intros Hc. unfold encode_point.
  by rewrite (ltb_true _ _ Hc), ascii_N_embedding.
Qed.

Lemma encode_point_2 (c c1 : ascii) :
  (194 ≤ N_of_ascii c)%N → (N_of_ascii c < 224)%N → continuation c1 = true →
  encode_point ((N_of_ascii c - 192) * 64 + low_bits c1)
  = String c (String c1 "").
Proof.
  intros H1 H2 [H3 H4]%continuation_range. unfold encode_point, low_bits.
  set (n := N_of_ascii c) in *. set (n1 := N_of_ascii c1) in *.
  rewrite ltb_false, ltb_true by lia.
  f_equal; [|f_equal]; apply byte_of_N; subst n n1; euclid.
Qed.

Lemma encode_point_3 (c c1 c2 : ascii) :
  (224 ≤ N_of_ascii c)%N → (N_of_ascii c < 240)%N →
  continuation c1 = true → continuation c2 = true →
  (N_of_ascii c = 224 → 160 ≤ N_of_ascii c1)%N →
  encode_point (((N_of_ascii c - 224) * 64 + low_bits c1) * 64 + low_bits c2)
  = String c (String c1 (String c2 "")).
Proof.
  intros H1 H2 [H3 H4]%continuation_range [H5 H6]%continuation_range H7.
  unfold encode_point, low_bits.
  set (n := N_of_ascii c) in *. set (n1 := N_of_ascii c1) in *.
  set (n2 := N_of_ascii c2) in *.
  rewrite !ltb_false, ltb_true by lia.
  f_equal; [|f_equal; [|f_equal]]; apply byte_of_N; subst n n1 n2; euclid.
Qed.

Lemma encode_point_4 (c c1 c2 c3 : ascii) :
  (240 ≤ N_of_ascii c)%N → (N_of_ascii c < 245)%N →
  continuation c1 = true → continuation c2 = true → continuation c3 = true →
  (N_of_ascii c = 240 → 144 ≤ N_of_ascii c1)%N →
  encode_point
    ((((N_of_ascii c - 240) * 64 + low_bits c1) * 64 + low_bits c2) * 64
     + low_bits c3)
  = String c (String c1 (String c2 (String c3 ""))).
Proof.
  intros H1 H2 [H3 H4]%continuation_range [H5 H6]%continuation_range
    [H7 H8]%continuation_range H9.
  unfold encode_point, low_bits.
  set (n := N_of_ascii c) in *. set (n1 := N_of_ascii c1) in *.
  set (n2 := N_of_ascii c2) in *. set (n3 := N_of_ascii c3) in *.
  rewrite !ltb_false by lia.
  f_equal; [|f_equal; [|f_equal; [|f_equal]]]; apply byte_of_N; subst n n1 n2 n3; euclid.
Qed.

Lemma if_eqb_true (a b : N) (test : bool) :
  (if (a =? b)%N then test else true) = true → a = b → test = true.
Proof. intros Hif ->. by rewrite N.eqb_refl in Hif. Qed.

(** A well-formed text is empty or starts with the encoding of a
    character, which [code_points] reads back. *)
Lemma utf8_head (s : string) :
  utf8 s = true →
  s = "" ∨ ∃ n chunk s',
    s = chunk +:+ s' ∧ encode_point n = chunk ∧ utf8 s' = true
    ∧ scalar n = true ∧ code_points s = n :: code_points s'
    ∧ (String.length s' < String.length s)%nat.
Proof.
  destruct s as [|c rest]; [by left|]. intros Hutf. right.
  cbn [utf8] in Hutf. cbn [code_points].
  pose proof (N_ascii_bounded c) as Hc.
  destruct (N.ltb_spec (N_of_ascii c) 128) as [H1|H1].
  { exists (N_of_ascii c), (String c ""), rest.
    rewrite ltb_true by lia.
    split_and!; [done|by apply encode_point_1|done| |done|simpl; lia].
    apply scalar_intro; lia. }
  destruct (N.ltb_spec (N_of_ascii c) 194) as [H2|H2]; [done|].
  rewrite (ltb_false _ 192) by lia.
  destruct rest as [|c1 rest1]; [done|].
  destruct (N.ltb_spec (N_of_ascii c) 224) as [H3|H3].
  { apply andb_prop in Hutf as [Hc1 Hrest]. rewrite Hc1. cbn [negb].
    pose proof (continuation_range _ Hc1) as Hr1.
    eexists _, (String c (String c1 "")), rest1.
    split_and!; [done|by apply encode_point_2|done| |done|simpl; lia].
    unfold low_bits. apply scalar_intro; lia. }
  destruct rest1 as [|c2 rest2]; [done|].
  destruct (N.ltb_spec (N_of_ascii c) 240) as [H4|H4].
  { apply andb_prop in Hutf as [Hutf Hrest].
    apply andb_prop in Hutf as [Hutf Hsur].
    apply andb_prop in Hutf as [Hutf Hlong].
    apply andb_prop in Hutf as [Hc1 Hc2].
    rewrite Hc1, Hc2. cbn [negb].
    pose proof (continuation_range _ Hc1) as Hr1.
    pose proof (continuation_range _ Hc2) as Hr2.
    pose proof (if_eqb_true _ _ _ Hlong) as Hlong'.
    pose proof (if_eqb_true _ _ _ Hsur) as Hsur'.
    assert (N_of_ascii c = 224 → 160 ≤ N_of_ascii c1)%N as Hl
      by (intros Heq; by apply N.leb_le, Hlong').
    assert (N_of_ascii c = 237 → N_of_ascii c1 < 160)%N as Hs
      by (intros Heq; by apply N.ltb_lt, Hsur').
    eexists _, (String c (String c1 (String c2 ""))), rest2.
    split_and!; [done|by apply encode_point_3|done| |done|simpl; lia].
    unfold low_bits. apply scalar_intro; lia. }
  destruct rest2 as [|c3 rest3]; [done|].
  apply andb_prop in Hutf as [Hutf Hrest].
  apply andb_prop in Hutf as [Hutf Hmax].
  apply andb_prop in Hutf as [Hutf Hlong].
  apply andb_prop in Hutf as [Hutf Hc3].
  apply andb_prop in Hutf as [Hutf Hc2].
  apply andb_prop in Hutf as [Hlt Hc1].
  rewrite Hc1, Hc2, Hc3. cbn [negb]. apply N.ltb_lt in Hlt.
  pose proof (continuation_range _ Hc1) as Hr1.
  pose proof (continuation_range _ Hc2) as Hr2.
  pose proof (continuation_range _ Hc3) as Hr3.
  pose proof (if_eqb_true _ _ _ Hlong) as Hlong'.
  pose proof (if_eqb_true _ _ _ Hmax) as Hmax'.
  assert (N_of_ascii c = 240 → 144 ≤ N_of_ascii c1)%N as Hl
    by (intros Heq; by apply N.leb_le, Hlong').
  assert (N_of_ascii c = 244 → N_of_ascii c1 < 144)%N as Hs
    by (intros Heq; by apply N.ltb_lt, Hmax').
  eexists _, (String c (String c1 (String c2 (String c3 "")))), rest3.
  split_and!; [done|by apply encode_point_4|done| |done|simpl; lia].
  unfold low_bits. apply scalar_intro; lia.
Qed.

Lemma hex_value_digit (d : N) :
  (d < 16)%N → hex_value (hex_digit d) = Some d.
Proof.
  intros Hd.
  assert (d ∈ [0; 1; 2; 3; 4; 5; 6; 7; 8; 9; 10; 11; 12; 13; 14; 15]%N) as Hin.
  { rewrite !elem_of_cons, elem_of_nil. lia. }
  rewrite !elem_of_cons, elem_of_nil in Hin.
  destruct_or!; subst; done.
Qed.

Lemma hex_code_escape (n : N) :
  (n < 65536)%N →
  hex_code (hex_digit (n / 4096)) (hex_digit (n / 256 mod 16))
    (hex_digit (n / 16 mod 16)) (hex_digit (n mod 16)) = Some n.
Proof.
  intros Hn. unfold hex_code.
  rewrite !hex_value_digit by euclid. cbn [mbind option_bind].
  f_equal. euclid.
Qed.

Lemma unescape_u_lone (h1 h2 h3 h4 : ascii) (n : N) (rest : string) :
  hex_code h1 h2 h3 h4 = Some n → high_surrogate n = false →
  unescape (String backslash (String "u"
    (String h1 (String h2 (String h3 (String h4 rest))))))
  = '(body, after) ← unescape rest; Some (encode_point n +:+ body, after).
Proof.
  intros Hcode Hhigh.
  change (unescape (String backslash (String "u"
    (String h1 (String h2 (String h3 (String h4 rest)))))))
    with (n ← hex_code h1 h2 h3 h4;
          if high_surrogate n then
            match rest with
            | String b (String u (String l1 (String l2
                (String l3 (String l4 rest3))))) =>
                if Ascii.eqb b backslash && Ascii.eqb u "u" then
                  m ← hex_code l1 l2 l3 l4;
                  if low_surrogate m then
                    '(body, after) ← unescape rest3;
                    Some (encode_point
                            (65536 + (n - 55296) * 1024 + (m - 56320))
                          +:+ body, after)
                  else '(body, after) ← unescape rest;
                       Some (encode_point n +:+ body, after)
                else '(body, after) ← unescape rest;
                     Some (encode_point n +:+ body, after)
            | _ => '(body, after) ← unescape rest;
                   Some (encode_point n +:+ body, after)
            end
          else '(body, after) ← unescape rest;
               Some (encode_point n +:+ body, after)).
  rewrite Hcode. cbn [mbind option_bind]. by rewrite Hhigh.
Qed.

Lemma unescape_u_pair (h1 h2 h3 h4 l1 l2 l3 l4 : ascii) (n m : N)
    (rest : string) :
  hex_code h1 h2 h3 h4 = Some n → high_surrogate n = true →
  hex_code l1 l2 l3 l4 = Some m → low_surrogate m = true →
  unescape (String backslash (String "u"
    (String h1 (String h2 (String h3 (String h4
      (String backslash (String "u"
        (String l1 (String l2 (String l3 (String l4 rest))))))))))))
  = '(body, after) ← unescape rest;
    Some (encode_point (65536 + (n - 55296) * 1024 + (m - 56320)) +:+ body,
          after).
Proof.
  intros Hcode Hhigh Hcode' Hlow.
  change (unescape (String backslash (String "u"
    (String h1 (String h2 (String h3 (String h4
      (String backslash (String "u"
        (String l1 (String l2 (String l3 (String l4 rest)))))))))))))
    with (n ← hex_code h1 h2 h3 h4;
          if high_surrogate n then
            m ← hex_code l1 l2 l3 l4;
            if low_surrogate m then
              '(body, after) ← unescape rest;
              Some (encode_point (65536 + (n - 55296) * 1024 + (m - 56320))
                    +:+ body, after)
            else '(body, after) ← unescape (String backslash (String "u"
                   (String l1 (String l2 (String l3 (String l4 rest))))));
                 Some (encode_point n +:+ body, after)
          else '(body, after) ← unescape (String backslash (String "u"
                 (String l1 (String l2 (String l3 (String l4 rest))))));
               Some (encode_point n +:+ body, after)).
  rewrite Hcode. cbn [mbind option_bind]. rewrite Hhigh, Hcode'.
  cbn [mbind option_bind]. by rewrite Hlow.
Qed.

Lemma unescape_ascii (c : ascii) (tail : string) :
  (N_of_ascii c <? 128)%N = true →
  unescape (escape_point (N_of_ascii c) +:+ tail)
  = '(body, after) ← unescape tail; Some (String c body, after).
Proof.
  destruct c as [[] [] [] [] [] [] [] []]; intros Hc;
    try discriminate Hc; reflexivity.
Qed.

Lemma scalar_range (n : N) :
  scalar n = true → ((n < 55296 ∨ 57344 ≤ n) ∧ n < 1114112)%N.
Proof.
  unfold scalar. intros [Hn Hmax]%andb_prop. apply N.ltb_lt in Hmax.
  apply orb_prop in Hn as [Hn%N.ltb_lt|Hn%N.leb_le]; lia.
Qed.

Lemma escape_point_u (n : N) :
  (128 ≤ n)%N →
  escape_point n
  = if (n <? 65536)%N then u_escape n
    else u_escape (55296 + (n - 65536) / 1024)
         +:+ u_escape (56320 + (n - 65536) mod 1024).
Proof.
  intros Hn. unfold escape_point.
  rewrite !eqb_false by lia. by rewrite (leb_false n 126), andb_false_r by lia.
Qed.

(** Reading the escape of a character gives its encoding. *)
Lemma unescape_point (n : N) (tail : string) :
  scalar n = true →
  unescape (escape_point n +:+ tail)
  = '(body, after) ← unescape tail; Some (encode_point n +:+ body, after).
Proof.
  intros [Hn Hmax]%scalar_range.
  destruct (N.ltb_spec n 128) as [Hascii|Hascii].
  { rewrite <- (N_ascii_embedding n) by lia.
    rewrite unescape_ascii, encode_point_1;
      rewrite ?N_ascii_embedding by lia; [done|lia|by apply N.ltb_lt]. }
  rewrite escape_point_u by done.
  destruct (N.ltb_spec n 65536) as [Hbmp|Hbmp].
  - unfold u_escape. expose.
    apply unescape_u_lone; [by apply hex_code_escape|].
    unfold high_surrogate.
    destruct (N.leb_spec 55296 n); [|done]. by rewrite ltb_false by lia.
  - unfold u_escape. expose.
    rewrite (unescape_u_pair _ _ _ _ _ _ _ _
               (55296 + (n - 65536) / 1024) (56320 + (n - 65536) mod 1024)).
    + replace (65536 + (55296 + (n - 65536) / 1024 - 55296) * 1024
               + (56320 + (n - 65536) mod 1024 - 56320))%N with n by euclid.
      done.
    + apply hex_code_escape. euclid.
    + unfold high_surrogate. rewrite leb_true, ltb_true by euclid. done.
    + apply hex_code_escape. euclid.
    + unfold low_surrogate. rewrite leb_true, ltb_true by euclid. done.
Qed.

Lemma escape_head (s s' : string) (n : N) :
  code_points s = n :: code_points s' →
  escape s = escape_point n +:+ escape s'.
Proof. unfold escape. by intros ->. Qed.

(** A string literal is read back as the text it was written from. *)
Lemma unescape_escape (s rest : string) :
  utf8 s = true → unescape (escape s +:+ dquote +:+ rest) = Some (s, rest).
Proof.
  remember (String.length s) as k eqn:Hk. revert s Hk.
  induction (lt_wf k) as [k _ IH]. intros s -> Hutf.
  destruct (utf8_head s Hutf)
    as [->|(n & chunk & s' & -> & Hchunk & Hutf' & Hn & Hcp & Hlen)];
    [reflexivity|].
  rewrite (escape_head _ _ _ Hcp), string_app_assoc, unescape_point by done.
  rewrite (IH _ Hlen s' eq_refl Hutf'). cbn [mbind option_bind].
  by rewrite Hchunk.
Qed.

(** Well-formed text followed by well-formed text is well formed. *)
Lemma utf8_app (s t : string) :
  utf8 s = true → utf8 (s +:+ t) = utf8 t.
Proof.
  remember (String.length s) as k eqn:Hk. revert s Hk.
  induction (lt_wf k) as [k _ IH]. intros s -> Hutf.
  destruct s as [|c rest]; [done|]. rewrite app_cons.
  cbn [utf8] in *.
  destruct (N_of_ascii c <? 128)%N; [apply (IH _ (Nat.lt_succ_diag_r _) _ eq_refl Hutf)|].
  destruct (N_of_ascii c <? 194)%N; [done|].
  destruct rest as [|c1 rest1]; [done|]. rewrite app_cons.
  destruct (N_of_ascii c <? 224)%N.
  { apply andb_prop in Hutf as [-> Hrest].
    apply (IH (String.length rest1)); [simpl; lia|done|done]. }
  destruct rest1 as [|c2 rest2]; [done|]. rewrite app_cons.
  destruct (N_of_ascii c <? 240)%N.
  { apply andb_prop in Hutf as [Hutf Hrest].
    rewrite Hutf. apply (IH (String.length rest2)); [simpl; lia|done|done]. }
  destruct rest2 as [|c3 rest3]; [done|]. rewrite app_cons.
  apply andb_prop in Hutf as [Hutf Hrest].
  rewrite Hutf. apply (IH (String.length rest3)); [simpl; lia|done|done].
Qed.

(** *** Numbers *)

Lemma ends_number_cases (rest : string) :
  ends_number rest = true →
  rest = "" ∨ ∃ c rest', rest = String c rest' ∧ is_digit c = false
    ∧ Ascii.eqb c "." = false ∧ Ascii.eqb c "e" = false
    ∧ Ascii.eqb c "E" = false ∧ Ascii.eqb c "+" = false
    ∧ Ascii.eqb c "-" = false.
Proof.
  destruct rest as [|c rest']; [by left|]. intros Hends. right.
  exists c, rest'. cbn [ends_number] in Hends.
  apply negb_true_iff in Hends. repeat apply orb_false_elim in Hends as [Hends ?].
  done.
Qed.

Lemma span_digits_app (s rest ds after : string) :
  ends_number rest = true →
  span_digits s = (ds, after) →
  span_digits (s +:+ rest) = (ds, after +:+ rest).
Proof.
  intros Hends. revert ds after.
  induction s as [|c s IH]; intros ds after Hspan.
  - injection Hspan as <- <-. rewrite !app_nil.
    destruct (ends_number_cases _ Hends) as [->|(c & r & -> & Hc & _)];
      [done|]. cbn [span_digits]. by rewrite Hc.
  - rewrite app_cons. cbn [span_digits] in *.
    destruct (is_digit c).
    + destruct (span_digits s) as [ds' after'].
      injection Hspan as <- <-. by rewrite (IH ds' after').
    + by injection Hspan as <- <-.
Qed.

Lemma integer_part_app (s rest ds after : string) :
  ends_number rest = true →
  integer_part s = Some (ds, after) →
  integer_part (s +:+ rest) = Some (ds, after +:+ rest).
Proof.
  intros Hends. destruct s as [|c s]; [done|].
  rewrite app_cons. cbn [integer_part].
  destruct (Ascii.eqb c "0"); [by intros [= <- <-]|].
  destruct (is_digit c); [|done].
  destruct (span_digits s) as [ds' after'] eqn:Hspan.
  intros [= <- <-]. by rewrite (span_digits_app _ _ _ _ Hends Hspan).
Qed.

Lemma fraction_part_app (s rest fraction after : string) :
  ends_number rest = true →
  fraction_part s = (fraction, after) →
  fraction_part (s +:+ rest) = (fraction, after +:+ rest).
Proof.
  intros Hends.
  destruct (ends_number_cases _ Hends)
    as [->|(c' & r & -> & Hdigit & Hpoint & _)].
  { rewrite !string_app_nil_r. done. }
  destruct s as [|c [|d s]].
  - intros [= <- <-]. rewrite !app_nil. cbn [fraction_part].
    rewrite Hpoint. by destruct r.
  - intros [= <- <-]. rewrite !app_cons, !app_nil. cbn [fraction_part].
    by rewrite Hdigit, andb_false_r.
  - rewrite !app_cons. cbn [fraction_part].
    destruct (Ascii.eqb c "." && is_digit d); [|by intros [= <- <-]].
    destruct (span_digits s) as [ds' after'] eqn:Hspan.
    intros [= <- <-]. by rewrite (span_digits_app _ _ _ _ Hends Hspan).
Qed.

Lemma exponent_part_app (s rest exponent after : string) :
  ends_number rest = true →
  exponent_part s = (exponent, after) →
  exponent_part (s +:+ rest) = (exponent, after +:+ rest).
Proof.
  intros Hends.
  destruct (ends_number_cases _ Hends)
    as [->|(c' & r & -> & Hdigit & _ & He & HE & Hplus & Hminus)].
  { rewrite !string_app_nil_r. done. }
  destruct s as [|e s].
  - intros [= <- <-]. rewrite !app_nil. cbn [exponent_part].
    by rewrite He, HE.
  - rewrite !app_cons. cbn [exponent_part].
    destruct (Ascii.eqb e "e" || Ascii.eqb e "E"); [|by intros [= <- <-]].
    destruct s as [|g s].
    + rewrite app_nil. rewrite Hplus, Hminus. cbn [orb span_digits].
      rewrite Hdigit. by intros [= <- <-].
    + rewrite app_cons.
      destruct (Ascii.eqb g "+" || Ascii.eqb g "-").
      * destruct (span_digits s) as [ds' after'] eqn:Hspan.
        rewrite (span_digits_app _ _ _ _ Hends Hspan).
        destruct ds'; by intros [= <- <-].
      * rewrite <- app_cons.
        destruct (span_digits (String g s)) as [ds' after'] eqn:Hspan.
        rewrite (span_digits_app _ _ _ _ Hends Hspan).
        destruct ds'; by intros [= <- <-].
Qed.

(** A number is read the same with more text behind it, if that text does
    not go on with the number. *)
Lemma scan_number_app (s rest after : string) (v : json) :
  ends_number rest = true →
  scan_number s = Ok (v, after) →
  scan_number (s +:+ rest) = Ok (v, after +:+ rest).
Proof.
  intros Hends. unfold scan_number.
  set (split_sign := λ s : string,
    match s with
    | String c rest => if Ascii.eqb c "-" then ("-", rest) else ("", s)
    | EmptyString => ("", s)
    end).
  destruct s as [|c s]; [done|]. rewrite app_cons.
  assert (∃ sign s1, split_sign (String c s) = (sign, s1)
            ∧ split_sign (String c (s +:+ rest)) = (sign, s1 +:+ rest))
    as (sign & s1 & Hs & Hs').
  { unfold split_sign. destruct (Ascii.eqb c "-"); by eexists _, _. }
  fold (split_sign (String c s)). fold (split_sign (String c (s +:+ rest))).
  rewrite Hs, Hs'.
  destruct (integer_part s1) as [[ds s2]|] eqn:Hint; [|done].
  rewrite (integer_part_app _ _ _ _ Hends Hint).
  destruct (fraction_part s2) as [fraction s3] eqn:Hfrac.
  rewrite (fraction_part_app _ _ _ _ Hends Hfrac).
  destruct (exponent_part s3) as [exponent s4] eqn:Hexp.
  rewrite (exponent_part_app _ _ _ _ Hends Hexp).
  destruct (fraction +:+ exponent).
  - case_decide; [done|]. destruct sign; by intros [= <- <-].
  - by intros [= <- <-].
Qed.

Lemma span_digits_uint (d : Decimal.uint) :
  span_digits (NilEmpty.string_of_uint d) = (NilEmpty.string_of_uint d, "").
Proof. induction d; cbn; by rewrite ?IHd. Qed.

Lemma nzhead_no_zero (d d' : Decimal.uint) :
  Decimal.nzhead d ≠ Decimal.D0 d'.
Proof. induction d; done. Qed.

Lemma unorm_zero (d : Decimal.uint) :
  Decimal.unorm (Decimal.D0 d) = Decimal.D0 d → d = Decimal.Nil.
Proof.
  unfold Decimal.unorm. cbn [Decimal.nzhead].
  destruct (Decimal.nzhead d) eqn:Hhead; try done.
  - congruence.
  - by destruct (nzhead_no_zero d u).
Qed.

Lemma to_uint_unorm (x : N) : Decimal.unorm (N.to_uint x) = N.to_uint x.
Proof.
  rewrite <- (DecimalN.Unsigned.of_to x) at 2.
  by rewrite DecimalN.Unsigned.to_of.
Qed.

Lemma integer_part_uint (d : Decimal.uint) :
  Decimal.unorm d = d →
  integer_part (NilEmpty.string_of_uint d) = Some (NilEmpty.string_of_uint d, "").
Proof.
  destruct d; intros Hnorm; try done;
    try (cbn; by rewrite span_digits_uint).
  by rewrite (unorm_zero _ Hnorm).
Qed.

Lemma int_of_digits_uint (x : N) :
  int_of_digits (NilEmpty.string_of_uint (N.to_uint x)) = Z.of_N x.
Proof.
  unfold int_of_digits.
  by rewrite NilEmpty.usu, DecimalN.Unsigned.of_to.
Qed.

Lemma digits_head (n : Z) :
  ∃ c body, digits n = String c body ∧ is_digit c = true.
Proof.
  unfold digits. pose proof (to_uint_unorm (Z.abs_N n)) as Hnorm.
  destruct (N.to_uint (Z.abs_N n)); try done; by eexists _, _.
Qed.

Lemma scan_number_repr (n : Z) :
  (String.length (digits n) ≤ max_str_digits)%nat →
  scan_number (repr n) = Ok (JInt n, "").
Proof.
  intros Hlimit. unfold repr, scan_number.
  destruct (digits_head n) as (c & body & Hdigits & Hc).
  pose proof (integer_part_uint _ (to_uint_unorm (Z.abs_N n))) as Hint.
  fold (digits n) in Hint.
  destruct (Z.ltb_spec n 0) as [Hneg|Hpos].
  - rewrite app_cons, app_nil. cbn [Ascii.eqb Bool.eqb andb].
    rewrite Hint. cbn [fraction_part exponent_part String.app].
    case_decide; [lia|].
    unfold digits. rewrite int_of_digits_uint. do 2 f_equal. f_equal. lia.
  - rewrite Hdigits at 1. rewrite Hdigits at 1.
    assert (Ascii.eqb c "-" = false) as ->.
    { revert Hc. clear. by destruct c as [[] [] [] [] [] [] [] []]. }
    rewrite <- Hdigits, Hint. cbn [fraction_part exponent_part String.app].
    case_decide; [lia|].
    unfold digits. rewrite int_of_digits_uint. do 2 f_equal. f_equal. lia.
Qed.

Lemma integer_part_head (s ds after : string) :
  integer_part s = Some (ds, after) →
  ∃ c body, s = String c body ∧ is_digit c = true.
Proof.
  destruct s as [|c body]; [done|]. cbn [integer_part].
  destruct (Ascii.eqb_spec c "0") as [->|_]; [by eexists _, _|].
  destruct (is_digit c) eqn:Hc; [by eexists _, _|done].
Qed.

Lemma scan_number_head (s : string) (found : json * string) :
  scan_number s = Ok found →
  ∃ c body, s = String c body
    ∧ (is_digit c = true
       ∨ c = "-"%char ∧ ∃ d body', body = String d body' ∧ is_digit d = true).
Proof.
  unfold scan_number. destruct s as [|c body]; [done|].
  destruct (Ascii.eqb_spec c "-") as [->|_].
  - destruct (integer_part body) as [[ds s2]|] eqn:Hint; [|done].
    destruct (integer_part_head _ _ _ Hint) as (d & body' & -> & Hd).
    intros _. eexists _, _. split; [done|]. right. split; [done|].
    by eexists _, _.
  - destruct (integer_part (String c body)) as [[ds s2]|] eqn:Hint; [|done].
    destruct (integer_part_head _ _ _ Hint) as (d & body' & [= -> ->] & Hd).
    intros _. eexists _, _. split; [done|]. by left.
Qed.

(** *** Texts on one line *)

Lemma no_line_break_app (s t : string) :
  no_line_break (s +:+ t) = no_line_break s && no_line_break t.
Proof.
  induction s as [|c s IH]; [reflexivity|].
  change (String c s +:+ t) with (String c (s +:+ t)).
  cbn [no_line_break]. rewrite IH. by rewrite andb_assoc.
Qed.

Lemma digit_on_line (c : ascii) (s : string) :
  is_digit c = true → no_line_break (String c s) = no_line_break s.
Proof. by destruct c as [[] [] [] [] [] [] [] []]. Qed.

Lemma span_digits_on_line (s ds after : string) :
  span_digits s = (ds, after) → no_line_break ds = true.
Proof.
  revert ds. induction s as [|c s IH]; intros ds; [by intros [= <- <-]|].
  cbn [span_digits]. destruct (is_digit c) eqn:Hc; [|by intros [= <- <-]].
  destruct (span_digits s) as [ds' after']. intros [= <- <-].
  rewrite digit_on_line by done. by apply IH.
Qed.

Lemma integer_part_on_line (s ds after : string) :
  integer_part s = Some (ds, after) → no_line_break ds = true.
Proof.
  destruct s as [|c s]; [done|]. cbn [integer_part].
  destruct (Ascii.eqb c "0"); [by intros [= <- <-]|].
  destruct (is_digit c) eqn:Hc; [|done].
  destruct (span_digits s) as [ds' after'] eqn:Hspan. intros [= <- <-].
  rewrite digit_on_line by done. by eapply span_digits_on_line.
Qed.

Lemma fraction_part_on_line (s fraction after : string) :
  fraction_part s = (fraction, after) → no_line_break fraction = true.
Proof.
  destruct s as [|c [|d s]]; try by intros [= <- <-].
  cbn [fraction_part].
  destruct (Ascii.eqb_spec c ".") as [->|_]; [|by intros [= <- <-]].
  destruct (is_digit d) eqn:Hd; [|by intros [= <- <-]]. cbn [andb].
  destruct (span_digits s) as [ds' after'] eqn:Hspan. intros [= <- <-].
  change (no_line_break (String "." (String d ds')))
    with (no_line_break (String d ds')).
  rewrite digit_on_line by done. by eapply span_digits_on_line.
Qed.

Lemma exponent_part_on_line (s exponent after : string) :
  exponent_part s = (exponent, after) → no_line_break exponent = true.
Proof.
  destruct s as [|e s]; [by intros [= <- <-]|]. cbn [exponent_part].
  destruct (Ascii.eqb e "e" || Ascii.eqb e "E") eqn:He; [|by intros [= <- <-]].
  assert (∀ t, no_line_break (String e t) = no_line_break t) as Hfirst.
  { intros t. revert He. clear. by destruct e as [[] [] [] [] [] [] [] []]. }
  destruct s as [|g s].
  - by intros [= <- <-].
  - destruct (Ascii.eqb g "+" || Ascii.eqb g "-") eqn:Hg.
    + destruct (span_digits s) as [[|d ds'] after'] eqn:Hspan;
        intros [= <- <-]; [done|].
      rewrite Hfirst, app_cons, app_nil.
      assert (∀ t, no_line_break (String g t) = no_line_break t) as ->.
      { intros t. revert Hg. clear. by destruct g as [[] [] [] [] [] [] [] []]. }
      by eapply span_digits_on_line.
    + destruct (span_digits (String g s)) as [[|d ds'] after'] eqn:Hspan;
        intros [= <- <-]; [done|].
      rewrite Hfirst, app_nil. by eapply span_digits_on_line.
Qed.

Lemma float_on_line (s token after : string) :
  scan_number s = Ok (JFloat token, after) → no_line_break token = true.
Proof.
  unfold scan_number.
  set (split_sign := match s with
    | String c rest => if Ascii.eqb c "-" then ("-", rest) else ("", s)
    | EmptyString => ("", s)
    end).
  assert (no_line_break split_sign.1 = true) as Hsign.
  { unfold split_sign. destruct s as [|c s]; [done|].
    by destruct (Ascii.eqb c "-"). }
  destruct split_sign as [sign s1]. cbn [fst] in Hsign.
  destruct (integer_part s1) as [[ds s2]|] eqn:Hint; [|done].
  destruct (fraction_part s2) as [fraction s3] eqn:Hfrac.
  destruct (exponent_part s3) as [exponent s4] eqn:Hexp.
  destruct (fraction +:+ exponent) eqn:Hfloat.
  - case_decide; [done|]. by destruct sign.
  - intros [= <- <-]. rewrite <- Hfloat, !no_line_break_app, Hsign.
    rewrite (integer_part_on_line _ _ _ Hint).
    rewrite (fraction_part_on_line _ _ _ Hfrac).
    by rewrite (exponent_part_on_line _ _ _ Hexp).
Qed.

Lemma digits_on_line (n : Z) : no_line_break (digits n) = true.
Proof.
  unfold digits. induction (N.to_uint (Z.abs_N n)); done.
Qed.

Lemma repr_on_line (n : Z) : no_line_break (repr n) = true.
Proof.
  unfold repr. destruct (n <? 0)%Z; [|apply digits_on_line].
  rewrite no_line_break_app. by rewrite digits_on_line.
Qed.

Lemma hex_digit_on_line (d : N) (s : string) :
  no_line_break (String (hex_digit d) s) = no_line_break s.
Proof.
  destruct d as [|p]; [done|].
  do 4 (try destruct p as [p|p|]); done.
Qed.

Lemma u_escape_on_line (n : N) : no_line_break (u_escape n) = true.
Proof.
  unfold u_escape.
  change (no_line_break (String backslash (String "u" ?t)))
    with (no_line_break t).
  by rewrite !hex_digit_on_line.
Qed.

Lemma escape_ascii_on_line (c : ascii) :
  no_line_break (escape_point (N_of_ascii c)) = true.
Proof. by destruct c as [[] [] [] [] [] [] [] []]. Qed.

Lemma escape_point_on_line (n : N) : no_line_break (escape_point n) = true.
Proof.
  destruct (N.ltb_spec n 128) as [Hascii|Hascii].
  - rewrite <- (N_ascii_embedding n) by lia. apply escape_ascii_on_line.
  - rewrite escape_point_u by done.
    destruct (n <? 65536)%N; [apply u_escape_on_line|].
    by rewrite no_line_break_app, !u_escape_on_line.
Qed.

Lemma quote_on_line (s : string) : no_line_break (quote s) = true.
Proof.
  unfold quote. rewrite !no_line_break_app.
  assert (no_line_break (escape s) = true) as ->; [|reflexivity].
  unfold escape. induction (code_points s) as [|n ns IH]; [done|].
  cbn [foldr]. by rewrite no_line_break_app, escape_point_on_line, IH.
Qed.

Lemma join_on_line (texts : list string) :
  Forall (λ text, no_line_break text = true) texts →
  no_line_break (join texts) = true.
Proof.
  induction 1 as [|text texts Htext Htexts IH]; [done|].
  cbn [join]. destruct texts as [|text' texts]; [done|].
  by rewrite !no_line_break_app, Htext, IH.
Qed.

(** *** One step of the scanner *)

Lemma parse_value_space (fuel : nat) (s : string) :
  parse_value fuel (String " " s) = parse_value fuel s.
Proof. destruct fuel; reflexivity. Qed.

Lemma parse_elements_space (fuel : nat) (seen : list json) (s : string) :
  parse_elements fuel seen (String " " s) = parse_elements fuel seen s.
Proof.
  destruct fuel; [reflexivity|]. cbn [parse_elements].
  by rewrite parse_value_space.
Qed.

Lemma parse_members_space (fuel : nat) (seen : gmap string json) (s : string) :
  parse_members fuel seen (String " " s) = parse_members fuel seen s.
Proof. destruct fuel; reflexivity. Qed.

Lemma parse_string (fuel : nat) (s rest : string) :
  utf8 s = true →
  parse_value (S fuel) (quote s +:+ rest) = Ok (JStr s, rest).
Proof.
  intros Hutf. unfold quote, dquote. expose.
  change (parse_value (S fuel) (String "034" ?tail))
    with (match unescape tail with
          | Some (text, after) => Ok (JStr text, after)
          | None => Raise JSONDecodeError
          end).
  change (String "034" rest) with (dquote +:+ rest).
  by rewrite unescape_escape.
Qed.

Lemma parse_value_digit (fuel : nat) (c : ascii) (body : string) :
  is_digit c = true →
  parse_value (S fuel) (String c body) = scan_number (String c body).
Proof.
  destruct c as [[] [] [] [] [] [] [] []]; intros Hc;
    try discriminate Hc; reflexivity.
Qed.

Lemma parse_value_minus (fuel : nat) (d : ascii) (body : string) :
  is_digit d = true →
  parse_value (S fuel) (String "-" (String d body))
  = scan_number (String "-" (String d body)).
Proof.
  destruct d as [[] [] [] [] [] [] [] []]; intros Hd;
    try discriminate Hd; reflexivity.
Qed.

Lemma parse_number (fuel : nat) (s : string) (found : json * string) :
  scan_number s = Ok found → parse_value (S fuel) s = Ok found.
Proof.
  intros Hscan.
  destruct (scan_number_head _ _ Hscan)
    as (c & body & -> & [Hc|(-> & d & body' & -> & Hd)]).
  - by rewrite parse_value_digit.
  - by rewrite parse_value_minus.
Qed.

Lemma digit_starts (c : ascii) : is_digit c = true → starts_value c = true.
Proof. by destruct c as [[] [] [] [] [] [] [] []]. Qed.

Lemma parse_list_open (fuel : nat) (c : ascii) (body : string) :
  starts_value c = true →
  parse_value (S fuel) (String "[" (String c body))
  = parse_elements fuel [] (String c body).
Proof.
  destruct c as [[] [] [] [] [] [] [] []]; intros Hc;
    try discriminate Hc; reflexivity.
Qed.

Lemma parse_dict_open (fuel : nat) (key after : string) :
  parse_value (S fuel) (String "{" (quote key +:+ after))
  = parse_members fuel ∅ (quote key +:+ after).
Proof. unfold quote, dquote. expose. reflexivity. Qed.

Lemma parse_elements_step (fuel : nat) (seen : list json) (s : string) :
  parse_elements (S fuel) seen s
  = '(v, after) ← parse_value fuel s;
    match skip_ws after with
    | String c rest =>
        if Ascii.eqb c "," then parse_elements fuel (seen ++ [v]) rest
        else if Ascii.eqb c "]" then Ok (JList (seen ++ [v]), rest)
        else Raise JSONDecodeError
    | EmptyString => Raise JSONDecodeError
    end.
Proof. reflexivity. Qed.

Lemma parse_member (fuel : nat) (seen : gmap string json) (key after : string) :
  utf8 key = true →
  parse_members (S fuel) seen (quote key +:+ String ":" after)
  = '(v, after') ← parse_value fuel after;
    match skip_ws after' with
    | String c rest =>
        if Ascii.eqb c ","
        then parse_members fuel (<[key := v]> seen) rest
        else if Ascii.eqb c "}"
        then Ok (JDict (<[key := v]> seen), rest)
        else Raise JSONDecodeError
    | EmptyString => Raise JSONDecodeError
    end.
Proof.
  intros Hutf. unfold quote, dquote. expose.
  change (parse_members (S fuel) seen (String "034" ?tail))
    with (match unescape tail with
          | Some (key, after) =>
              match skip_ws after with
              | String c' rest' =>
                  if Ascii.eqb c' ":" then
                    '(v, after') ← parse_value fuel rest';
                    match skip_ws after' with
                    | String c'' rest'' =>
                        if Ascii.eqb c'' ","
                        then parse_members fuel (<[key := v]> seen) rest''
                        else if Ascii.eqb c'' "}"
                        then Ok (JDict (<[key := v]> seen), rest'')
                        else Raise JSONDecodeError
                    | EmptyString => Raise JSONDecodeError
                    end
                  else Raise JSONDecodeError
              | EmptyString => Raise JSONDecodeError
              end
          | None => Raise JSONDecodeError
          end).
  change (String "034" (String ":" after)) with (dquote +:+ String ":" after).
  by rewrite unescape_escape.
Qed.

(** *** Lists and dicts *)

Lemma join_cons {A} (f : A → string) (x x' : A) (xs : list A) :
  join (f <$> x :: x' :: xs) = f x +:+ ", " +:+ join (f <$> x' :: xs).
Proof. reflexivity. Qed.

Lemma join_cons_length {A} (f : A → string) (x x' : A) (xs : list A) :
  String.length (join (f <$> x :: x' :: xs))
  = (String.length (f x) + 2 + String.length (join (f <$> x' :: xs)))%nat.
Proof. rewrite join_cons, !string_length_app. simpl. lia. Qed.

Section round_trip.

Variable order : list (string * string) → list (string * string).

Lemma parse_items (items : list json) :
  ∀ (v : json) (fuel : nat) (seen : list json) (rest : string),
    Forall (carried order) (v :: items) →
    (2 * String.length (join (dumps order <$> v :: items)) + 1 ≤ fuel)%nat →
    parse_elements fuel seen
      (join (dumps order <$> v :: items) +:+ String "]" rest)
    = Ok (JList (seen ++ v :: items), rest).
Proof.
  induction items as [|v' items IH]; intros v fuel seen rest Hall Hfuel;
    (destruct fuel as [|fuel]; [lia|]);
    apply Forall_cons in Hall as [(_ & _ & Hv) Hall];
    rewrite parse_elements_step.
  - cbn [fmap list_fmap join] in *.
    rewrite Hv by (done || lia). reflexivity.
  - rewrite join_cons_length in Hfuel. rewrite join_cons.
    expose. rewrite Hv by (done || lia).
    cbn [mbind result_bind skip_ws Ascii.eqb Bool.eqb orb andb].
    rewrite parse_elements_space, IH by (done || lia).
    by rewrite <- app_assoc.
Qed.

Lemma parse_entries (entries : list (string * json)) :
  ∀ (entry : string * json) (fuel : nat) (seen : gmap string json)
      (rest : string),
    Forall (λ entry, utf8 entry.1 = true ∧ carried order entry.2)
      (entry :: entries) →
    (2 * String.length (join (member_text order <$> entry :: entries)) + 1
     ≤ fuel)%nat →
    parse_members fuel seen
      (join (member_text order <$> entry :: entries) +:+ String "}" rest)
    = Ok (JDict (foldl (λ acc entry, <[entry.1 := entry.2]> acc) seen
                   (entry :: entries)), rest).
Proof.
  induction entries as [|entry' entries IH];
    intros [k v] fuel seen rest Hall Hfuel;
    (destruct fuel as [|fuel]; [lia|]);
    apply Forall_cons in Hall as [[Hk (_ & _ & Hv)] Hall];
    cbn [fst snd] in Hk, Hv.
  - cbn [fmap list_fmap join] in *. unfold member_text in *.
    cbn [fst snd] in *. rewrite !string_length_app in Hfuel.
    expose. rewrite parse_member, parse_value_space by done.
    rewrite Hv by (done || lia). reflexivity.
  - rewrite join_cons_length in Hfuel. rewrite join_cons.
    unfold member_text at 1. unfold member_text at 1 in Hfuel.
    cbn [fst snd] in *. rewrite !string_length_app in Hfuel.
    expose. rewrite parse_member, parse_value_space by done.
    rewrite Hv by (done || lia).
    cbn [mbind result_bind skip_ws Ascii.eqb Bool.eqb orb andb].
    rewrite parse_members_space, IH by (done || lia).
    reflexivity.
Qed.

Lemma carried_null : carried order JNull.
Proof.
  split_and!; [done|by eexists _, _|].
  intros [|fuel] rest Hfuel _; [simpl in Hfuel; lia|]. reflexivity.
Qed.

Lemma carried_bool (b : bool) : carried order (JBool b).
Proof.
  destruct b; (split_and!; [done|by eexists _, _|]);
    (intros [|fuel] rest Hfuel _; [simpl in Hfuel; lia|]); reflexivity.
Qed.

Lemma carried_number (v : json) :
  scan_number (dumps order v) = Ok (v, "") →
  no_line_break (dumps order v) = true →
  carried order v.
Proof.
  intros Hscan Hline.
  destruct (scan_number_head _ _ Hscan) as (c & body & Htext & Hc).
  split_and!; [done| |].
  - exists c, body. split; [done|].
    destruct Hc as [Hc|[-> _]]; [by apply digit_starts|done].
  - intros [|fuel] rest Hfuel Hends; [rewrite Htext in Hfuel; simpl in Hfuel; lia|].
    apply parse_number. by rewrite (scan_number_app _ _ _ _ Hends Hscan).
Qed.

Lemma carried_int (n : Z) :
  representable (JInt n) = true → carried order (JInt n).
Proof.
  intros Hlimit%bool_decide_eq_true.
  apply carried_number; [by apply scan_number_repr|apply repr_on_line].
Qed.

Lemma carried_float (literal : string) :
  representable (JFloat literal) = true → carried order (JFloat literal).
Proof.
  cbn [representable]. unfold float_literal.
  intros [[->%bool_decide_eq_true| ->%bool_decide_eq_true]%orb_prop|Hscan]%orb_prop.
  - split_and!; [done|by eexists _, _|].
    intros [|fuel] rest Hfuel _; [simpl in Hfuel; lia|]. reflexivity.
  - split_and!; [done|by eexists _, _|].
    intros [|fuel] rest Hfuel _; [simpl in Hfuel; lia|]. reflexivity.
  - destruct (scan_number literal) as [[[| | |token| | |] [|]]|] eqn:Hnumber;
      try discriminate Hscan.
    apply bool_decide_eq_true in Hscan as ->.
    apply carried_number; [done|]. by eapply float_on_line.
Qed.

Lemma carried_str (s : string) :
  representable (JStr s) = true → carried order (JStr s).
Proof.
  cbn [representable]. intros Hutf. unfold carried.
  change (dumps order (JStr s)) with (quote s).
  split_and!; [apply quote_on_line|by eexists _, _|].
  intros [|fuel] rest Hfuel _.
  - unfold quote in Hfuel. rewrite string_length_app in Hfuel.
    simpl in Hfuel. lia.
  - by apply parse_string.
Qed.

Lemma parse_list_start (fuel : nat) (text : string) :
  (∃ c body, text = String c body ∧ starts_value c = true) →
  parse_value (S fuel) (String "[" text) = parse_elements fuel [] text.
Proof. intros (c & body & -> & Hc). by apply parse_list_open. Qed.

Lemma parse_dict_start (fuel : nat) (text : string) :
  (∃ key after, text = quote key +:+ after) →
  parse_value (S fuel) (String "{" text) = parse_members fuel ∅ text.
Proof. intros (key & after & ->). apply parse_dict_open. Qed.

Lemma carried_list (items : list json) :
  Forall (carried order) items → carried order (JList items).
Proof.
  intros Hall. unfold carried.
  change (dumps order (JList items))
    with ("[" +:+ join (dumps order <$> items) +:+ "]").
  split_and!.
  - rewrite !no_line_break_app, join_on_line; [done|].
    apply Forall_fmap. eapply Forall_impl; [exact Hall|]. by intros v (? & _).
  - by eexists _, _.
  - intros [|fuel] rest Hfuel _; [simpl in Hfuel; lia|].
    destruct items as [|v items]; [reflexivity|].
    rewrite !string_length_app in Hfuel. cbn [String.length] in Hfuel.
    expose. rewrite parse_list_start.
    + by rewrite parse_items by (done || lia).
    + apply Forall_cons in Hall as [(_ & (c & body & Hv & Hc) & _) _].
      destruct items as [|v' items].
      * cbn [fmap list_fmap join]. rewrite Hv. expose. by eexists _, _.
      * rewrite join_cons, Hv. expose. by eexists _, _.
Qed.

Lemma foldl_insert (entries : list (string * json)) (m : gmap string json) :
  entries ≡ₚ map_to_list m →
  foldl (λ acc entry, <[entry.1 := entry.2]> acc) ∅ entries = m.
Proof.
  intros Hperm.
  assert (∀ (l : list (string * json)) (acc : gmap string json),
            foldl (λ acc entry, <[entry.1 := entry.2]> acc) acc l
            = foldr (λ entry acc, <[entry.1 := entry.2]> acc) acc (reverse l))
    as Hfold.
  { induction l as [|entry l IH]; intros acc; [done|].
    by rewrite reverse_cons, foldr_app, <- IH. }
  rewrite Hfold. change (list_to_map (reverse entries) = m).
  rewrite <- (list_to_map_to_list m). apply list_to_map_proper.
  - rewrite reverse_Permutation, Hperm. apply NoDup_fst_map_to_list.
  - by rewrite reverse_Permutation.
Qed.

Hypothesis order_arranges : arranges order.

Lemma dumps_dict (m : gmap string json) :
  ∃ entries, entries ≡ₚ map_to_list m
    ∧ dumps order (JDict m)
      = "{" +:+ join (member_text order <$> entries) +:+ "}".
Proof.
  change (dumps order (JDict m))
    with ("{" +:+ join ((λ '(k, text), quote k +:+ ": " +:+ text)
                          <$> order (map_to_list (dumps order <$> m)))
          +:+ "}").
  rewrite map_to_list_fmap.
  pose proof (order_arranges (prod_map id (dumps order) <$> map_to_list m))
    as Hperm.
  apply Permutation_map_inv in Hperm as (entries & Horder & Hentries).
  exists entries. split; [done|]. rewrite Horder.
  change (map (prod_map id (dumps order)) entries)
    with (prod_map id (dumps order) <$> entries).
  rewrite <- list_fmap_compose. do 2 f_equal.
Qed.

Lemma carried_dict (m : gmap string json) :
  (∀ k v, m !! k = Some v → utf8 k = true ∧ carried order v) →
  carried order (JDict m).
Proof.
  intros Hm. destruct (dumps_dict m) as (entries & Hperm & Htext).
  assert (Forall (λ entry, utf8 entry.1 = true ∧ carried order entry.2)
            entries) as Hall.
  { apply Forall_forall. intros [k v] Hin. apply Hm.
    apply elem_of_map_to_list. by rewrite <- Hperm. }
  unfold carried. rewrite Htext.
  split_and!.
  - rewrite !no_line_break_app, join_on_line; [done|].
    apply Forall_fmap. eapply Forall_impl; [exact Hall|].
    intros [k v] [_ (Hline & _)]. unfold compose, member_text.
    by rewrite !no_line_break_app, quote_on_line, Hline.
  - by eexists _, _.
  - intros [|fuel] rest Hfuel _; [simpl in Hfuel; lia|].
    rewrite <- (foldl_insert _ _ Hperm). clear Hperm Htext.
    destruct entries as [|entry entries]; [reflexivity|].
    rewrite !string_length_app in Hfuel. cbn [String.length] in Hfuel.
    expose. rewrite parse_dict_start.
    + by rewrite parse_entries by (done || lia).
    + destruct entry as [k v]. destruct entries as [|entry' entries].
      * cbn [fmap list_fmap join]. unfold member_text. expose.
        by eexists _, _.
      * rewrite join_cons. unfold member_text at 1. expose. by eexists _, _.
Qed.

(** Every value within the domain is carried. *)
Lemma carried_all (v : json) : representable v = true → carried order v.
Proof.
  remember (depth v) as k eqn:Hk. revert v Hk.
  induction (lt_wf k) as [k _ IH]. intros v -> Hv.
  destruct v as [|b|n|literal|s|items|m].
  - apply carried_null.
  - apply carried_bool.
  - by apply carried_int.
  - by apply carried_float.
  - by apply carried_str.
  - apply carried_list, Forall_forall. intros v Hin.
    cbn [representable] in Hv. apply Is_true_true, forallb_True in Hv.
    rewrite Forall_forall in Hv.
    apply (IH (depth v)); [|done|by apply Is_true_true, Hv].
    cbn [depth]. apply Nat.lt_succ_r, max_list_elem_of_le.
    by apply list_elem_of_fmap_2.
  - apply carried_dict. intros k v Hlookup.
    cbn [representable] in Hv. apply Is_true_true, forallb_True in Hv.
    rewrite Forall_forall in Hv.
    assert ((k, representable v) ∈ map_to_list (representable <$> m)) as Hin
      by (by rewrite elem_of_map_to_list, lookup_fmap, Hlookup).
    apply Hv in Hin. apply Is_true_true, andb_prop in Hin as [Hk Hrep].
    split; [done|]. apply (IH (depth v)); [|done|done].
    cbn [depth]. apply Nat.lt_succ_r, max_list_elem_of_le.
    apply list_elem_of_fmap. exists (k, depth v). split; [done|].
    by rewrite elem_of_map_to_list, lookup_fmap, Hlookup.
Qed.

(** A value within the domain is written on one line, and the line is read
    back as the value. *)
Lemma transported_representable (v : json) :
  representable v = true → transported (dumps order) loads v.
Proof.
  intros (Hline & (c & body & Hhead & _) & Hparse)%carried_all.
  split; [done|]. unfold loads.
  rewrite Hparse; [done| |done].
  rewrite string_length_app. lia.
Qed.

End round_trip.

Lemma representable_dict (m : gmap string json) :
  (∀ k v, m !! k = Some v → utf8 k = true ∧ representable v = true) →
  representable (JDict m) = true.
Proof.
  intros Hm. cbn [representable]. apply Is_true_true, forallb_True.
  apply Forall_forall. intros [k ok] Hin.
  apply elem_of_map_to_list in Hin. rewrite lookup_fmap in Hin.
  apply fmap_Some in Hin as (v & Hv & ->).
  destruct (Hm k v Hv) as [-> ->]. done.
Qed.

Lemma representable_message (role content : string) :
  utf8 role = true → utf8 content = true →
  representable (message_dict role content) = true.
Proof.
  intros Hrole Hcontent. apply representable_dict. intros k v.
  rewrite !lookup_insert_Some, lookup_empty.
  intros [[<- <-]|[_ [[<- <-]|[_ [=]]]]]; done.
Qed.

(** An exchange built from a row of well-formed text is within the
    domain. *)
Lemma representable_exchange (row : Row) :
  utf8 (Review row) = true → utf8 (Rating row) = true →
  utf8 (Sentiment row) = true →
  representable (create_full_exchange row) = true.
Proof.
  intros Hreview Hrating Hsentiment. apply representable_dict. intros k v.
  rewrite lookup_insert_Some, lookup_empty. intros [[<- <-]|[_ [=]]].
  split; [done|]. cbn [representable app forallb].
  rewrite !representable_message; try done.
  all: unfold create_assistant_message, create_user_message.
  all: by rewrite !utf8_app by (reflexivity || assumption).
Qed.

End CodecFacts.

Lemma insertion_order_arranges : arranges insertion_order.
Proof. intros entries. apply filter_app_complement. Qed.

Lemma round_trip_of_transported (dumps : json → string)
    (loads : string → result json) (data_list : list json) :
  Forall (transported dumps loads) data_list →
  file_lines (write_jsonl dumps data_list)
    = (λ ddict, dumps ddict +:+ newline) <$> data_list
  ∧ load_dataset loads (write_jsonl dumps data_list) = Ok data_list.
Proof.
  intros Hall. unfold load_dataset, write_jsonl.
  rewrite write_records_lines. change ("" +:+ ?s) with s.
  rewrite file_lines_records
    by (eapply Forall_impl; [exact Hall | by intros ? [? ?]]).
  split; [reflexivity|].
  induction Hall as [|ddict rest [_ Hload] _ IH]; [done|].
  rewrite fmap_cons. cbn [load_lines]. rewrite Hload. cbn. rewrite IH.
  reflexivity.
Qed.

(** C5: writing a list of records with [write_jsonl], one serialized record
    and a newline per line, and loading the file line by line with
    [json.loads] gives the same records in the same order.  This holds for
    every list of records that JSON text carries exactly (dicts keyed by
    text and lists, nested at will, of well-formed text, integers within the
    digits limit of Python 3.11, floats other than NaN, booleans and
    [None]) and for whatever order the dicts list their keys in; the file
    then holds one line per record.  The exchanges the notebook builds from
    rows of well-formed text are such records. *)
Theorem jsonl_round_trip :
  (∀ (order : list (string * string) → list (string * string))
      (data_list : list json),
     arranges order →
     Forall (λ ddict, Codec.representable ddict = true) data_list →
     file_lines (write_jsonl (Codec.dumps order) data_list)
       = (λ ddict, Codec.dumps order ddict +:+ newline) <$> data_list
     ∧ load_dataset Codec.loads (write_jsonl (Codec.dumps order) data_list)
       = Ok data_list)
  ∧ (∀ (order : list (string * string) → list (string * string))
        (rows : list Row),
       arranges order →
       Forall (λ row, Codec.utf8 (Review row) = true
                      ∧ Codec.utf8 (Rating row) = true
                      ∧ Codec.utf8 (Sentiment row) = true) rows →
       load_dataset Codec.loads
         (write_jsonl (Codec.dumps order) (create_full_exchange <$> rows))
       = Ok (create_full_exchange <$> rows)).
Proof.
  split.
  - intros order data_list Horder Hall. apply round_trip_of_transported.
    eapply Forall_impl; [exact Hall|]. intros ddict Hddict.
    by apply CodecFacts.transported_representable.
  - intros order rows Horder Hall. apply round_trip_of_transported.
    apply Forall_fmap. eapply Forall_impl; [exact Hall|].
    intros row (Hreview & Hrating & Hsentiment). unfold compose.
    apply CodecFacts.transported_representable; [done|].
    by apply CodecFacts.representable_exchange.
Qed.

Lemma jsonl_round_trip_witness :
  file_lines
    (write_jsonl (Codec.dumps insertion_order)
       [sample_exchange; sample_weighted; sample_without_system])
  = (λ ddict, Codec.dumps insertion_order ddict +:+ newline)
      <$> [sample_exchange; sample_weighted; sample_without_system]
  ∧ load_dataset Codec.loads
      (write_jsonl (Codec.dumps insertion_order)
         [sample_exchange; sample_weighted; sample_without_system])
    = Ok [sample_exchange; sample_weighted; sample_without_system].
Proof.
  destruct jsonl_round_trip as [Hany _].
  apply (Hany insertion_order); [exact insertion_order_arranges|].
  repeat constructor; vm_compute; reflexivity.
Defined.

(** ** The token counters *)

Section token_counter_facts.

Variable count : string → Z.
Variable tokens_per_message : Z.
Variable trailing_tokens : Z.

Lemma add_message_tokens_sum (conversation : list (string * string))
    (num_tokens : Z) :
  add_message_tokens count tokens_per_message num_tokens
    ((λ m, message_dict m.1 m.2) <$> conversation)
  = Ok (num_tokens
        + sum_over (λ m, tokens_per_message + count m.1 + count m.2)
            conversation).
Proof.
  revert num_tokens.
  induction conversation as [|[role content] rest IH]; intros num_tokens.
  - simpl. f_equal. lia.
  - rewrite fmap_cons. cbn [add_message_tokens].
    change (Py.getitem (message_dict _ _) "role") with (Ok (JStr role)).
    change (Py.getitem (message_dict _ _) "content") with (Ok (JStr content)).
    cbn [mbind result_bind count_text]. rewrite IH. simpl. f_equal. lia.
Qed.

Lemma add_assistant_tokens_sum (conversation : list (string * string))
    (num_tokens : Z) :
  add_assistant_tokens count tokens_per_message num_tokens
    ((λ m, message_dict m.1 m.2) <$> conversation)
  = Ok (num_tokens
        + sum_over (λ m, tokens_per_message + count m.2)
            (filter (λ m, m.1 = "assistant") conversation)).
Proof.
  revert num_tokens.
  induction conversation as [|[role content] rest IH]; intros num_tokens.
  - simpl. f_equal. lia.
  - rewrite fmap_cons, filter_cons. cbn [add_assistant_tokens].
    change (Py.getitem (message_dict _ _) "role") with (Ok (JStr role)).
    change (Py.getitem (message_dict _ _) "content") with (Ok (JStr content)).
    cbn [mbind result_bind count_text Py.eq_str fst snd].
    destruct (decide (role = "assistant")) as [->|Hrole].
    + rewrite bool_decide_eq_true_2 by done. rewrite IH. simpl. f_equal. lia.
    + rewrite bool_decide_eq_false_2 by done. by rewrite IH.
Qed.

End token_counter_facts.

(** C9: the total token count of a conversation is the sum over its
    messages of the per-message overhead, the tokens of the role and the
    tokens of the content, plus the trailing overhead once; the
    assistant-only count is the sum of the per-message overhead and the
    tokens of the content over the messages of role "assistant".  With the
    toy strategy and both overheads 3, the worked conversation has 28
    tokens, 7 of them for the assistant. *)
Theorem token_count_formula (count : string → Z)
    (tokens_per_message trailing_tokens : Z)
    (conversation : list (string * string)) :
  num_tokens_from_messages count tokens_per_message trailing_tokens
    (messages_json conversation)
  = Ok (sum_over (λ m, tokens_per_message + count m.1 + count m.2) conversation
        + trailing_tokens)
  ∧ num_assistant_tokens_from_messages count tokens_per_message
      (messages_json conversation)
    = Ok (sum_over (λ m, tokens_per_message + count m.2)
            (filter (λ m, m.1 = "assistant") conversation))
  ∧ num_tokens_from_messages toy_count 3 3 (messages_json worked_conversation)
    = Ok 28
  ∧ num_assistant_tokens_from_messages toy_count 3
      (messages_json worked_conversation)
    = Ok 7.
Proof.
  unfold num_tokens_from_messages, num_assistant_tokens_from_messages,
    messages_json.
  cbn [Py.iter mbind result_bind].
  rewrite add_message_tokens_sum, add_assistant_tokens_sum.
  repeat split.
Qed.

(** ** The format validator *)

(** Elements of one index followed by a sorted list of larger indexes. *)
Lemma sorted_after {A} (f : A → nat) (k : nat) (here later : list A) :
  Forall (λ x, f x = k) here →
  Forall (λ x, k ≤ f x)%nat later →
  Sorted (λ a b, f a ≤ f b)%nat later →
  Sorted (λ a b, f a ≤ f b)%nat (here ++ later).
Proof.
  intros Hhere Hlater Hsorted.
  induction Hhere as [|x here Hx Hhere IH]; [done|].
  rewrite <- app_comm_cons. constructor; [exact IH|].
  destruct Hhere as [|y here' Hy _].
  - destruct Hlater as [|z later' Hz _]; constructor. lia.
  - rewrite <- app_comm_cons. constructor. lia.
Qed.

Section format_validator_facts.

Variable alternatives : list string.

#[local] Abbreviation check_message := (check_message alternatives).
#[local] Abbreviation check_conversation := (check_conversation alternatives).
#[local] Abbreviation check_from := (check_from alternatives).
#[local] Abbreviation check_format_errors :=
  (check_format_errors alternatives).

(** The scan from any index and accumulator: what was found stays, and
    every remaining conversation contributes its issues. *)
Lemma check_from_join (dataset : list json) (index : nat)
    (issues : list Issue) :
  check_from index issues dataset
  = issues ++ mjoin (imap (λ i, check_conversation (index + i)) dataset).
Proof.
  revert index issues.
  induction dataset as [|ex rest IH]; intros index issues; simpl.
  - by rewrite app_nil_r.
  - rewrite IH, <- app_assoc, Nat.add_0_r. do 3 f_equal.
    apply imap_ext. intros i x _. simpl. f_equal. lia.
Qed.

Lemma check_format_errors_join (dataset : list json) :
  check_format_errors dataset = mjoin (imap check_conversation dataset).
Proof. apply (check_from_join dataset 0 []). Qed.

Lemma check_message_index (i j : nat) (message : json) (issue : Issue) :
  issue ∈ check_message i j message → issue_conversation issue = i.
Proof.
  unfold check_message.
  destruct message as [| | | | | |entries];
    try (intros ->%list_elem_of_singleton; reflexivity).
  rewrite !elem_of_app, list_elem_of_fmap.
  intros [Hrole|[Hcontent|(k & -> & _)]]; [| |reflexivity].
  - destruct (entries !! "role") as [[| | | |r| |]|];
      try (apply list_elem_of_singleton in Hrole as ->; reflexivity).
    all: case_decide; [by apply elem_of_nil in Hrole|].
    all: by apply list_elem_of_singleton in Hrole as ->.
  - repeat case_match;
      try (apply list_elem_of_singleton in Hcontent as ->; reflexivity);
      by apply elem_of_nil in Hcontent.
Qed.

Lemma check_conversation_index (i : nat) (ex : json) (issue : Issue) :
  issue ∈ check_conversation i ex → issue_conversation issue = i.
Proof.
  assert (∀ issue,
    issue ∈ (if existsb (role_is "assistant") (messages_of ex) then []
             else [mkIssue i None None MissingAssistantMessage]) →
    issue_conversation issue = i) as Hlast.
  { intros x. case_match; [by intros ?%elem_of_nil|].
    by intros ->%list_elem_of_singleton. }
  unfold check_conversation.
  destruct ex as [| | | | | |entries];
    try (intros [->|?]%elem_of_cons; [reflexivity | by apply Hlast]).
  rewrite !elem_of_app, list_elem_of_fmap.
  intros [Htop|[(k & -> & _)|[Hmessages|Hmissing]]];
    [|reflexivity| |by apply Hlast].
  - repeat case_match;
      try (apply list_elem_of_singleton in Htop as ->; reflexivity);
      by apply elem_of_nil in Htop.
  - apply list_elem_of_join in Hmessages as (found & Hissue & Hfound).
    apply elem_of_lookup_imap in Hfound as (j & message & -> & _).
    by eapply check_message_index.
Qed.

Lemma check_from_sorted (dataset : list json) (index : nat) :
  Forall (λ issue, index ≤ issue_conversation issue)%nat
    (mjoin (imap (λ i, check_conversation (index + i)) dataset))
  ∧ Sorted (λ a b, issue_conversation a ≤ issue_conversation b)%nat
      (mjoin (imap (λ i, check_conversation (index + i)) dataset)).
Proof.
  revert index. induction dataset as [|ex rest IH]; intros index.
  - split; constructor.
  - cbn [imap mjoin list_join].
    rewrite (imap_ext _ (λ i, check_conversation (S index + i)))
      by (intros; f_equal/=; lia).
    rewrite Nat.add_0_r.
    destruct (IH (S index)) as [Hlow Hsorted].
    assert (Forall (λ issue, issue_conversation issue = index)
              (check_conversation index ex)) as Hhere.
    { apply Forall_forall. intros issue. apply check_conversation_index. }
    split.
    + apply Forall_app. split.
      * eapply Forall_impl; [exact Hhere | simpl; lia].
      * eapply Forall_impl; [exact Hlow | simpl; lia].
    + eapply sorted_after; [exact Hhere | | exact Hsorted].
      eapply Forall_impl; [exact Hlow | simpl; lia].
Qed.

End format_validator_facts.

(** A message with a known role and a content raises no issue, and so
    does every exchange the notebook builds. *)
Lemma check_message_clean (alternatives : list string) (i j : nat)
    (role content : string) :
  role ∈ roles →
  check_message alternatives i j (message_dict role content) = [].
Proof.
  intros Hrole. unfold check_message, message_dict. cbn zeta.
  assert ((map_to_list (<["content" := JStr content]>
                          (<["role" := JStr role]> (∅ : gmap string json)))).*1
          = ["content"; "role"]) as -> by reflexivity.
  rewrite !filter_cons_False, filter_nil
    by (intros Hnot; apply Hnot; unfold recognized; repeat constructor).
  rewrite lookup_insert_ne, lookup_insert_eq by done.
  rewrite decide_True by done.
  rewrite lookup_insert_eq.
  rewrite (bool_decide_eq_true_2 (is_Some (Some _))) by by eexists.
  reflexivity.
Qed.

Lemma exchange_has_no_issue (alternatives : list string) (i : nat)
    (row : Row) :
  check_conversation alternatives i (create_full_exchange row) = [].
Proof.
  unfold check_conversation.
  change (messages_of (create_full_exchange row))
    with [message_dict "system" system_message;
          message_dict "user" (create_user_message row);
          message_dict "assistant" (create_assistant_message row)].
  cbn [imap mjoin list_join compose].
  rewrite !check_message_clean by (unfold roles; repeat constructor).
  reflexivity.
Qed.

(** C8: the validator returns the issues of every conversation of the
    dataset, in the order of the conversations: the report is the
    concatenation of the issues of each record at its index, so a malformed
    record leaves the issues found before it in place and the records after
    it inspected, and every issue of every record is in the report. *)
Theorem check_format_errors_exhaustive (alternatives : list string)
    (dataset : list json) :
  check_format_errors alternatives dataset
    = mjoin (imap (check_conversation alternatives) dataset)
  ∧ (∀ front ex rest,
       dataset = front ++ ex :: rest →
       check_format_errors alternatives dataset
       = check_format_errors alternatives front
         ++ check_conversation alternatives (length front) ex
         ++ mjoin (imap (λ i, check_conversation alternatives
                                (length front + S i)) rest))
  ∧ (∀ i ex issue,
       dataset !! i = Some ex →
       issue ∈ check_conversation alternatives i ex →
       issue ∈ check_format_errors alternatives dataset)
  ∧ (∀ issue,
       issue ∈ check_format_errors alternatives dataset →
       ∃ i ex, dataset !! i = Some ex
         ∧ issue ∈ check_conversation alternatives i ex
         ∧ issue_conversation issue = i)
  ∧ Sorted (λ a b, issue_conversation a ≤ issue_conversation b)%nat
      (check_format_errors alternatives dataset).
Proof.
  rewrite !check_format_errors_join.
  split; [reflexivity|]. split; [|split; [|split]].
  - intros front ex rest ->.
    rewrite check_format_errors_join, imap_app, join_app. simpl.
    by rewrite Nat.add_0_r.
  - intros i ex issue Hex Hissue.
    apply list_elem_of_join. exists (check_conversation alternatives i ex).
    split; [exact Hissue|]. by apply elem_of_lookup_imap_2.
  - intros issue (found & Hissue & Hfound)%list_elem_of_join.
    apply elem_of_lookup_imap in Hfound as (i & ex & -> & Hex).
    exists i, ex. repeat split; [done..|].
    by eapply check_conversation_index.
  - apply (check_from_sorted alternatives dataset 0).
Qed.

Lemma check_format_errors_exhaustive_witness :
  check_format_errors ["function_call"]
    ([sample_without_role] ++ sample_exchange :: [sample_without_messages])
  = [mkIssue 0 (Some 0%nat) (Some "role") MissingRole;
     mkIssue 0 None None MissingAssistantMessage;
     mkIssue 2 None (Some "messages") MissingMessagesList;
     mkIssue 2 None (Some "prompt") (UnrecognizedTopLevelKey "prompt");
     mkIssue 2 None None MissingAssistantMessage].
Proof.
  destruct (check_format_errors_exhaustive ["function_call"]
              ([sample_without_role] ++ sample_exchange
                 :: [sample_without_messages])) as (_ & Hsplit & _).
  rewrite (Hsplit [sample_without_role] sample_exchange
             [sample_without_messages] eq_refl).
  vm_compute. reflexivity.
Defined.

(** * Further properties of the cells *)

(** ** The epoch count *)

Lemma n_epochs_monotone (n m : Z) :
  0 < n → n ≤ m →
  ∃ e e', n_epochs n = Ok e ∧ n_epochs m = Ok e' ∧ e' ≤ e.
Proof.
  intros Hn Hm. rewrite !n_epochs_positive by lia.
  do 2 eexists. split; [reflexivity|]. split; [reflexivity|].
  assert (100 `div` m ≤ 100 `div` n) by (apply Z.div_le_compat_l; lia).
  assert (25000 `div` m ≤ 25000 `div` n) by (apply Z.div_le_compat_l; lia).
  repeat case_decide; try lia;
    try (assert (3 ≤ 100 `div` n) by (apply Z.div_le_lower_bound; lia));
    try (assert (25000 `div` m < 3) by (apply Z.div_lt_upper_bound; lia));
    lia.
Qed.

(** X1: on every dataset that is not empty the cost estimation returns an
    epoch count between [MIN_DEFAULT_EPOCHS] = 1 and [MAX_DEFAULT_EPOCHS]
    = 25. *)
Theorem epochs_within_bounds (dataset : list json) (convo_lens : list Z) :
  dataset ≠ [] →
  ∃ est, cost_estimation dataset convo_lens = Ok est
    ∧ 1 ≤ ce_n_epochs est ≤ 25.
Proof.
  intros Hne.
  destruct (cost_estimation_nonempty dataset convo_lens Hne) as (e & He & ->).
  eexists. split; [reflexivity|]. simpl.
  apply (n_epochs_bounds (Z.of_nat (length dataset))); [lia | exact He].
Qed.

Lemma epochs_within_bounds_witness :
  ∃ est, cost_estimation [JNull] [7] = Ok est ∧ 1 ≤ ce_n_epochs est ≤ 25.
Proof. apply (epochs_within_bounds [JNull] [7]). discriminate. Defined.

(** X2: a dataset with more examples never gets more epochs than one with
    fewer. *)
Theorem epochs_decrease_with_size (small large : list json)
    (convo_lens convo_lens' : list Z) :
  small ≠ [] →
  (length small ≤ length large)%nat →
  ∃ est est',
    cost_estimation small convo_lens = Ok est
    ∧ cost_estimation large convo_lens' = Ok est'
    ∧ ce_n_epochs est' ≤ ce_n_epochs est.
Proof.
  intros Hne Hle.
  assert (large ≠ []) as Hne' by (destruct small, large; simpl in *; done || lia).
  destruct (cost_estimation_nonempty small convo_lens Hne) as (e & He & ->).
  destruct (cost_estimation_nonempty large convo_lens' Hne') as (e' & He' & ->).
  do 2 eexists. split; [reflexivity|]. split; [reflexivity|]. simpl.
  destruct (n_epochs_monotone (Z.of_nat (length small))
              (Z.of_nat (length large))) as (a & a' & Ha & Ha' & Hle');
    [destruct small; [done | simpl; lia] | lia |].
  congruence.
Qed.

Lemma epochs_decrease_with_size_witness :
  ∃ est est',
    cost_estimation (replicate 10 JNull) [] = Ok est
    ∧ cost_estimation (replicate 50 JNull) [] = Ok est'
    ∧ ce_n_epochs est' ≤ ce_n_epochs est.
Proof.
  apply (epochs_decrease_with_size (replicate 10 JNull) (replicate 50 JNull)).
  - discriminate.
  - vm_compute. lia.
Defined.

(** X3: the epoch count by dataset size: 25 up to 4 examples, 100 // n
    (between 3 and 20) from 5 to 33, the target 3 from 34 to 8333, 2 from
    8334 to 12500 and 1 above. *)
Theorem epochs_by_size (n : Z) :
  0 < n →
  ∃ e, n_epochs n = Ok e
    ∧ (n ≤ 4 → e = 25)
    ∧ (5 ≤ n ≤ 33 → e = 100 `div` n ∧ 3 ≤ e ≤ 20)
    ∧ (34 ≤ n ≤ 8333 → e = 3)
    ∧ (8334 ≤ n ≤ 12500 → e = 2)
    ∧ (12501 ≤ n → e = 1).
Proof.
  intros Hn. rewrite n_epochs_positive by done. eexists.
  split; [reflexivity|].
  split_and!; intros Hrange; split_and?; repeat case_decide; try lia;
    try (assert (25 ≤ 100 `div` n) by (apply Z.div_le_lower_bound; lia));
    try (assert (3 ≤ 100 `div` n) by (apply Z.div_le_lower_bound; lia));
    try (assert (100 `div` n < 21) by (apply Z.div_lt_upper_bound; lia));
    try (assert (2 ≤ 25000 `div` n) by (apply Z.div_le_lower_bound; lia));
    try (assert (25000 `div` n < 3) by (apply Z.div_lt_upper_bound; lia));
    try (assert (25000 `div` n < 2) by (apply Z.div_lt_upper_bound; lia));
    lia.
Qed.

Lemma epochs_by_size_witness : n_epochs 8 = Ok 12.
Proof.
  destruct (epochs_by_size 8) as (e & He & _ & Hscaled & _); [lia|].
  destruct Hscaled as [-> _]; [lia|]. exact He.
Defined.

(** X4: the examples seen over all epochs, n times the epoch count, stay
    at or below the minimum target 100 while the epochs are scaled up
    (within n of it from 5 examples on), lie between the two targets for
    the unscaled sizes, and stay at or below the maximum target 25000
    while the epochs are scaled down, as long as the dataset itself has
    at most 25000 examples. *)
Theorem examples_seen (n : Z) :
  0 < n →
  ∃ e, n_epochs n = Ok e
    ∧ (n ≤ 33 → n * e ≤ 100)
    ∧ (5 ≤ n ≤ 33 → 100 - n < n * e)
    ∧ (34 ≤ n ≤ 8333 → 100 ≤ n * e ≤ 25000)
    ∧ (8334 ≤ n ≤ 25000 → n * e ≤ 25000)
    ∧ (25000 < n → n * e = n).
Proof.
  intros Hn. destruct (epochs_by_size n Hn) as (e & He & H4 & H33 & H3 & H2 & H1).
  exists e. split; [exact He|].
  split_and!; intros Hrange; split_and?.
  - destruct (decide (n ≤ 4)) as [Hsmall|Hsmall].
    + rewrite H4 by done. lia.
    + destruct H33 as [-> _]; [lia|]. apply Z.mul_div_le. lia.
  - destruct H33 as [-> _]; [lia|].
    pose proof (Z.mod_pos_bound 100 n Hn).
    pose proof (Z.div_mod 100 n). lia.
  - rewrite H3 by done. lia.
  - rewrite H3 by done. lia.
  - destruct (decide (n ≤ 12500)); [rewrite H2 by lia | rewrite H1 by lia]; lia.
  - rewrite H1 by lia. lia.
Qed.

Lemma examples_seen_witness : ∃ e, n_epochs 33 = Ok e ∧ 33 * e = 99.
Proof.
  destruct (examples_seen 33) as (e & He & Hup & Hnear & _); [lia|].
  exists e. split; [exact He|].
  assert (33 * e ≤ 100) by (apply Hup; lia).
  assert (100 - 33 < 33 * e) by (apply Hnear; lia). lia.
Defined.

(** X5: the cost estimation fails on the empty dataset only, and only with
    [ZeroDivisionError]. *)
Theorem cost_estimation_raises_iff_empty (dataset : list json)
    (convo_lens : list Z) (e : exn) :
  cost_estimation dataset convo_lens = Raise e
  ↔ dataset = [] ∧ e = ZeroDivisionError.
Proof.
  split.
  - intros Hraise. destruct dataset as [|ex dataset].
    + split; [done|]. by injection Hraise as <-.
    + destruct (cost_estimation_nonempty (ex :: dataset) convo_lens)
        as (e' & _ & Hok); [done|]. congruence.
  - by intros [-> ->].
Qed.

Lemma cost_estimation_raises_iff_empty_witness :
  cost_estimation [] [12; 9000] = Raise ZeroDivisionError.
Proof. apply cost_estimation_raises_iff_empty. by split. Defined.

(** ** Billable tokens and the truncation count *)

Lemma billing_cons (l : Z) (convo_lens : list Z) :
  n_billing_tokens_in_dataset (l :: convo_lens)
  = 4096 `min` l + n_billing_tokens_in_dataset convo_lens.
Proof. unfold n_billing_tokens_in_dataset. by rewrite fmap_cons, sum_cons. Qed.

Lemma too_long_cons (l : Z) (convo_lens : list Z) :
  n_too_long (l :: convo_lens)
  = Py.of_bool (bool_decide (l > 4096)) + n_too_long convo_lens.
Proof. unfold n_too_long. by rewrite fmap_cons, sum_cons. Qed.

Lemma too_long_range (convo_lens : list Z) :
  0 ≤ n_too_long convo_lens ≤ Z.of_nat (length convo_lens).
Proof.
  induction convo_lens as [|l ls IH]; [done|].
  rewrite too_long_cons. simpl length.
  destruct (bool_decide (l > 4096)); simpl; lia.
Qed.

(** X6: the tokens that truncation removes from the bill are the excess
    over 4096 of the conversations that are too long: the billable tokens
    never exceed the total, and equal it exactly when no conversation is
    counted as too long. *)
Theorem billing_truncation_loss (convo_lens : list Z) :
  sum_over (λ l, l) convo_lens - n_billing_tokens_in_dataset convo_lens
    = sum_over (λ l, l - 4096) (filter (λ l, l > 4096) convo_lens)
  ∧ n_billing_tokens_in_dataset convo_lens ≤ sum_over (λ l, l) convo_lens
  ∧ (n_billing_tokens_in_dataset convo_lens = sum_over (λ l, l) convo_lens
     ↔ n_too_long convo_lens = 0).
Proof.
  induction convo_lens as [|l ls (IHloss & IHle & IHeq)]; [done|].
  rewrite billing_cons, too_long_cons, filter_cons.
  pose proof (too_long_range ls) as Hrange.
  cbn [sum_over foldr]. fold (sum_over (λ l, l) ls).
  destruct (decide (l > 4096)) as [Hl|Hl].
  - rewrite bool_decide_eq_true_2 by done.
    cbn [sum_over foldr Py.of_bool].
    fold (sum_over (λ l, l - 4096) (filter (λ l, l > 4096) ls)). lia.
  - rewrite bool_decide_eq_false_2 by done. cbn [Py.of_bool]. lia.
Qed.

(** X7: every conversation is billed for at most 4096 tokens; when no
    token count is negative and the dataset is not empty, the charge over
    all epochs lies between the billable tokens and 25 times them. *)
Theorem charge_bounds (dataset : list json) (convo_lens : list Z) :
  dataset ≠ [] →
  Forall (λ l, 0 ≤ l) convo_lens →
  ∃ est, cost_estimation dataset convo_lens = Ok est
    ∧ 0 ≤ ce_n_billing_tokens est ≤ 4096 * Z.of_nat (length convo_lens)
    ∧ ce_n_billing_tokens est ≤ ce_charged_tokens est
    ∧ ce_charged_tokens est ≤ 25 * ce_n_billing_tokens est.
Proof.
  intros Hne Hlens.
  destruct (cost_estimation_nonempty dataset convo_lens Hne) as (e & He & ->).
  eexists. split; [reflexivity|]. simpl.
  apply n_epochs_bounds in He; [|lia].
  assert (0 ≤ n_billing_tokens_in_dataset convo_lens
          ≤ 4096 * Z.of_nat (length convo_lens)) as Hbill.
  { induction Hlens as [|l ls Hl _ IH]; [done|].
    rewrite billing_cons. simpl length. lia. }
  split; [exact Hbill|]. nia.
Qed.

Lemma charge_bounds_witness :
  ∃ est, cost_estimation [JNull; JNull] [5000; 28] = Ok est
    ∧ ce_n_billing_tokens est ≤ ce_charged_tokens est
    ∧ ce_charged_tokens est ≤ 25 * ce_n_billing_tokens est.
Proof.
  destruct (charge_bounds [JNull; JNull] [5000; 28])
    as (est & Hest & _ & Hlow & Hhigh).
  - discriminate.
  - repeat constructor; lia.
  - by exists est.
Defined.

(** X8: billable tokens and the truncation count add up over the
    concatenation of two lists of token counts. *)
Theorem counts_add_up (convo_lens convo_lens' : list Z) :
  n_billing_tokens_in_dataset (convo_lens ++ convo_lens')
    = n_billing_tokens_in_dataset convo_lens
      + n_billing_tokens_in_dataset convo_lens'
  ∧ n_too_long (convo_lens ++ convo_lens')
    = n_too_long convo_lens + n_too_long convo_lens'.
Proof.
  induction convo_lens as [|l ls [IHbill IHlong]].
  - by split.
  - rewrite <- app_comm_cons, !billing_cons, !too_long_cons, IHbill, IHlong.
    lia.
Qed.

(** X9: the truncation count lies between 0 and the number of
    conversations; it is 0 exactly when every count is at most 4096, and
    it is the number of conversations exactly when every count is above
    4096. *)
Theorem too_long_extremes (convo_lens : list Z) :
  0 ≤ n_too_long convo_lens ≤ Z.of_nat (length convo_lens)
  ∧ (n_too_long convo_lens = 0 ↔ Forall (λ l, l ≤ 4096) convo_lens)
  ∧ (n_too_long convo_lens = Z.of_nat (length convo_lens)
     ↔ Forall (λ l, l > 4096) convo_lens).
Proof.
  split; [apply too_long_range|].
  induction convo_lens as [|l ls [IHnone IHall]]; [by split|].
  rewrite too_long_cons, !Forall_cons. simpl length.
  pose proof (too_long_range ls) as Hrange.
  destruct (decide (l > 4096)) as [Hl|Hl].
  - rewrite bool_decide_eq_true_2 by done. cbn [Py.of_bool].
    split; [split; [lia | intros [? _]; lia]|].
    split; [intros ?; split; [done | apply IHall; lia]
           | intros [_ ?%IHall]; lia].
  - rewrite bool_decide_eq_false_2 by done. cbn [Py.of_bool].
    split; [split; [intros ?; split; [lia | apply IHnone; lia]
                   | intros [_ ?%IHnone]; lia]|].
    split; [lia | by intros [? _]].
Qed.

(** ** The scans and the loop of the token counts *)

Lemma role_key_cases (message : json) :
  (has_role_key message = true
   ∧ ∃ r, Py.getitem message "role" = Ok r
          ∧ ∀ role, role_is role message = Py.eq_str r role)
  ∨ (has_role_key message = false
     ∧ (∃ e, Py.getitem message "role" = Raise e)
     ∧ ∀ role, role_is role message = false).
Proof.
  destruct message as [| | | | | |entries];
    try (right; split; [done|]; split; [by eexists | done]).
  simpl. destruct (entries !! "role") as [r|] eqn:Hr.
  - left. split; [apply bool_decide_eq_true_2; by eexists|].
    exists r. by split.
  - right. split; [apply bool_decide_eq_false_2; by intros [? ?]|].
    split; [by eexists | done].
Qed.

Lemma any_role_cons (role : string) (m : json) (ms : list json) :
  (role_is role m = true → any_role role (m :: ms) = Ok true)
  ∧ (has_role_key m = true → role_is role m = false →
     any_role role (m :: ms) = any_role role ms)
  ∧ (∀ e, Py.getitem m "role" = Raise e → any_role role (m :: ms) = Raise e).
Proof.
  cbn [any_role].
  destruct (role_key_cases m) as [(Hkey & r & -> & Hrole)|(Hkey & [e' ->] & Hrole)];
    cbn [mbind result_bind]; rewrite ?Hrole.
  - split_and!; [intros H; by rewrite H | intros _ H; by rewrite H | done].
  - split_and!; [done | congruence | by intros e [= <-]].
Qed.

(** X10: what a scan for a role returns is decided by the first message
    that either has the role or cannot be asked for it: [True] when a
    message with the role comes before any message without a [role] entry,
    [False] when every message has a [role] entry and none has the role,
    and the error of the first message without a [role] entry when that
    one comes first. *)
Theorem any_role_outcomes (role : string) (messages : list json) :
  (any_role role messages = Ok true
   ↔ ∃ front message rest,
       messages = front ++ message :: rest
       ∧ Forall (λ m, has_role_key m = true ∧ role_is role m = false) front
       ∧ role_is role message = true)
  ∧ (any_role role messages = Ok false
     ↔ Forall (λ m, has_role_key m = true ∧ role_is role m = false) messages)
  ∧ (∀ e, any_role role messages = Raise e
     ↔ ∃ front message rest,
         messages = front ++ message :: rest
         ∧ Forall (λ m, has_role_key m = true ∧ role_is role m = false) front
         ∧ Py.getitem message "role" = Raise e).
Proof.
  induction messages as [|m ms (IHtrue & IHfalse & IHraise)].
  - split_and!; [split | split | intros e; split]; try done.
    + by intros ([|??] & ? & ? & ? & _).
    + by intros ([|??] & ? & ? & ? & _).
  - destruct (any_role_cons role m ms) as (Hhit & Hpass & Hfail).
    destruct (role_key_cases m)
      as [(Hkey & r & Hget & Hrole)|(Hkey & [e' Hget] & Hrole)].
    + destruct (role_is role m) eqn:Hm.
      * rewrite Hhit by done.
        split_and!; [split | split | intros e; split]; try done.
        -- intros _. by exists [], m, ms.
        -- intros [[_ ?] _]%Forall_cons. congruence.
        -- intros ([|m' front] & message & rest & Heq & Hfront & Hmessage);
             simplify_eq/=; [congruence|].
           apply Forall_cons in Hfront as [[_ ?] _]. congruence.
      * rewrite Hpass, IHtrue, IHfalse by done.
        split_and!; [split | split | intros e; rewrite IHraise; split].
        -- intros (front & message & rest & -> & Hfront & Hmessage).
           exists (m :: front), message, rest. split; [done|].
           split; [by constructor | done].
        -- intros ([|m' front] & message & rest & Heq & Hfront & Hmessage);
             simplify_eq/=; [congruence|].
           apply Forall_cons in Hfront as [_ Hfront].
           by exists front, message, rest.
        -- intros Hall. by constructor.
        -- by intros [_ ?]%Forall_cons.
        -- intros (front & message & rest & -> & Hfront & Hmessage).
           exists (m :: front), message, rest. split; [done|].
           split; [by constructor | done].
        -- intros ([|m' front] & message & rest & Heq & Hfront & Hmessage);
             simplify_eq/=; [congruence|].
           apply Forall_cons in Hfront as [_ Hfront].
           by exists front, message, rest.
    + rewrite (Hfail e' Hget).
      split_and!; [split | split | intros e; split]; try done.
      * intros ([|m' front] & message & rest & Heq & Hfront & Hmessage);
          simplify_eq/=.
        -- by rewrite Hrole in Hmessage.
        -- apply Forall_cons in Hfront as [[? _] _]. congruence.
      * intros [[? _] _]%Forall_cons. congruence.
      * intros [= <-]. exists [], m, ms. by split.
      * intros ([|m' front] & message & rest & Heq & Hfront & Hmessage);
          simplify_eq/=; [congruence|].
        apply Forall_cons in Hfront as [[? _] _]. congruence.
Qed.

Lemma any_role_hit (role : string) (front junk : list json) :
  forallb has_role_key front = true →
  existsb (role_is role) front = true →
  any_role role (front ++ junk) = Ok true.
Proof.
  induction front as [|m front IH]; [done|].
  intros [Hkey Hkeys]%andb_prop Hhit. rewrite <- app_comm_cons.
  destruct (any_role_cons role m (front ++ junk)) as (Hhere & Hpass & _).
  destruct (role_is role m) eqn:Hm; [by apply Hhere|].
  rewrite Hpass by done. apply IH; [done|]. simpl in Hhit.
  by rewrite Hm in Hhit.
Qed.

Lemma scanned_length (messages : json) (scan : list json) (role : string)
    (b : bool) (n : Z) :
  Py.iter messages = Ok scan →
  any_role role scan = Ok b →
  Py.len messages = Ok n →
  n = Z.of_nat (length (match messages with JList items => items | _ => [] end)).
Proof.
  intros Hiter Hany Hlen.
  destruct messages as [| | | |s|items|keys]; try discriminate Hiter;
    injection Hiter as <-; injection Hlen as <-.
  - destruct s as [|c s]; [done | discriminate Hany].
  - done.
  - destruct (map_to_list keys) as [|[k v] kvs] eqn:Hkeys;
      [|discriminate Hany].
    apply map_to_list_empty_iff in Hkeys as ->. by rewrite map_size_empty.
Qed.

Section loop_facts.

Variable num_tokens : json → result Z.
Variable num_assistant_tokens : json → result Z.

#[local] Abbreviation count_example :=
  (count_example num_tokens num_assistant_tokens).
#[local] Abbreviation count_examples :=
  (count_examples num_tokens num_assistant_tokens).
#[local] Abbreviation token_counts :=
  (token_counts num_tokens num_assistant_tokens).

Lemma count_example_lists (acc acc' : TokenCounts) (ex : json) :
  count_example acc ex = Ok acc' →
  ∃ assistant,
    total_of num_assistant_tokens ex assistant
    ∧ n_messages acc'
      = n_messages acc ++ [Z.of_nat (length (messages_of ex))]
    ∧ assistant_message_lens acc' = assistant_message_lens acc ++ [assistant].
Proof.
  unfold count_example.
  intros (messages & Hget & H)%bind_Ok.
  apply bind_Ok in H as (scan1 & Hscan1 & H).
  apply bind_Ok in H as (has_system & Hsys & H).
  apply bind_Ok in H as (scan2 & Hscan2 & H).
  apply bind_Ok in H as (has_user & Husr & H).
  apply bind_Ok in H as (n & Hn & H).
  apply bind_Ok in H as (total & Htotal & H).
  apply bind_Ok in H as (assistant & Hassistant & H).
  injection H as <-. simpl.
  exists assistant. split; [by exists messages|]. split; [|done].
  rewrite (scanned_length _ _ _ _ _ Hscan1 Hsys Hn).
  destruct ex as [| | | | | |entries]; try discriminate Hget.
  simpl in Hget. unfold messages_of.
  destruct (entries !! "messages") as [v|]; [|discriminate Hget].
  by injection Hget as ->.
Qed.

Lemma count_examples_lists (dataset : list json) (acc acc' : TokenCounts) :
  count_examples acc dataset = Ok acc' →
  n_messages acc'
    = n_messages acc
      ++ ((λ ex, Z.of_nat (length (messages_of ex))) <$> dataset)
  ∧ ∃ assistants,
      Forall2 (total_of num_assistant_tokens) dataset assistants
      ∧ assistant_message_lens acc' = assistant_message_lens acc ++ assistants.
Proof.
  revert acc. induction dataset as [|ex rest IH]; intros acc; simpl.
  - intros [= <-]. rewrite app_nil_r. split; [done|].
    exists []. split; [constructor | by rewrite app_nil_r].
  - intros (mid & Hex & Hrest)%bind_Ok.
    apply count_example_lists in Hex as (a & Ha & Hn & Hl).
    apply IH in Hrest as (-> & assistants & Hassistants & ->).
    rewrite Hn, Hl, <- !app_assoc. split; [done|].
    exists (a :: assistants). split; [by constructor | done].
Qed.

Lemma count_example_merge (acc : TokenCounts) (ex : json) :
  count_example acc ex = merge_counts acc <$> count_example no_counts ex.
Proof.
  unfold count_example.
  destruct (Py.getitem ex "messages") as [messages|]; [|done].
  cbn [mbind result_bind].
  destruct (Py.iter messages) as [scan|]; [|done].
  cbn [mbind result_bind].
  destruct (any_role "system" scan) as [has_system|]; [|done].
  destruct (any_role "user" scan) as [has_user|]; [|done].
  cbn [mbind result_bind].
  destruct (Py.len messages) as [n|]; [|done].
  destruct (num_tokens messages) as [total|]; [|done].
  destruct (num_assistant_tokens messages) as [assistant|]; [|done].
  cbn. unfold merge_counts. cbn.
  f_equal. f_equal; destruct has_system, has_user; lia.
Qed.

Lemma merge_counts_assoc (a b c : TokenCounts) :
  merge_counts (merge_counts a b) c = merge_counts a (merge_counts b c).
Proof.
  unfold merge_counts. cbn. f_equal; (lia || by rewrite app_assoc).
Qed.

Lemma count_examples_merge (dataset : list json) (acc : TokenCounts) :
  count_examples acc dataset
  = merge_counts acc <$> count_examples no_counts dataset.
Proof.
  revert acc. induction dataset as [|ex rest IH]; intros acc.
  - cbn. unfold merge_counts. destruct acc. cbn.
    by rewrite !Z.add_0_r, !app_nil_r.
  - change (count_examples ?a (ex :: rest))
      with (count_example a ex ≫= λ mid, count_examples mid rest).
    rewrite count_example_merge.
    destruct (count_example no_counts ex) as [first|]; [|done].
    cbn [fmap result_fmap mbind result_bind].
    rewrite (IH (merge_counts acc first)), (IH first).
    destruct (count_examples no_counts rest) as [second|]; [|done].
    cbn. by rewrite merge_counts_assoc.
Qed.

End loop_facts.

(** X11: when the loop completes, it has recorded one entry per record in
    each of its three lists, [n_messages] holds the number of messages of
    each record in the order of the dataset, each assistant count is what
    the counter returns for that record, and neither tally exceeds the
    number of records. *)
Theorem token_counts_shape (num_tokens num_assistant_tokens : json → result Z)
    (dataset : list json) (c : TokenCounts) :
  token_counts num_tokens num_assistant_tokens dataset = Ok c →
  n_messages c = (λ ex, Z.of_nat (length (messages_of ex))) <$> dataset
  ∧ Forall2 (total_of num_assistant_tokens) dataset (assistant_message_lens c)
  ∧ length (convo_lens c) = length dataset
  ∧ length (assistant_message_lens c) = length dataset
  ∧ 0 ≤ n_missing_system c ≤ Z.of_nat (length dataset)
  ∧ 0 ≤ n_missing_user c ≤ Z.of_nat (length dataset).
Proof.
  unfold token_counts. intros Hc.
  destruct (count_examples_lists _ _ _ _ _ Hc) as (Hn & assistants & Ha & Hl).
  destruct (count_examples_Ok _ _ _ _ _ Hc) as (Hs & Hu & totals & Ht & Hlens).
  simpl in *. subst assistants.
  split; [done|]. split; [done|].
  split; [rewrite Hlens; symmetry; by eapply Forall2_length|].
  split; [symmetry; by eapply Forall2_length|].
  rewrite Hs, Hu, !sum_over_of_bool.
  pose proof (length_filter (λ ex, lacks_role "system" ex = true) dataset).
  pose proof (length_filter (λ ex, lacks_role "user" ex = true) dataset).
  lia.
Qed.

Lemma token_counts_shape_witness :
  ∃ c, token_counts sample_counter sample_assistant_counter sample_dataset = Ok c
    ∧ n_messages c = [3; 2; 3; 2; 2].
Proof.
  destruct (token_counts sample_counter sample_assistant_counter sample_dataset)
    as [c|] eqn:Hc; [|discriminate Hc].
  exists c. split; [reflexivity|].
  by destruct (token_counts_shape _ _ _ _ Hc) as (-> & _).
Defined.

(** X12: the loop over the concatenation of two datasets is the loop over
    the first followed by the loop over the second: a failure in the first
    is the failure of the whole, and otherwise the tallies of the two add
    up and their lists follow each other. *)
Theorem token_counts_app (num_tokens num_assistant_tokens : json → result Z)
    (first second : list json) :
  token_counts num_tokens num_assistant_tokens (first ++ second)
  = match token_counts num_tokens num_assistant_tokens first with
    | Ok c =>
        merge_counts c <$> token_counts num_tokens num_assistant_tokens second
    | Raise e => Raise e
    end.
Proof.
  unfold token_counts. rewrite count_examples_app.
  destruct (count_examples _ _ no_counts first) as [c|]; [|done].
  apply count_examples_merge.
Qed.

(** X13: a record that is not a dict, a [messages] entry that cannot be
    iterated, and a first element of the messages that is not a dict (such
    as the first key of a dict or the first character of a string given
    for the messages) each make the loop raise [TypeError], whatever
    records follow. *)
Theorem token_counts_type_errors
    (num_tokens num_assistant_tokens : json → result Z)
    (front rest : list json) (ex : json) :
  forallb well_shaped front = true →
  forallb (countable num_tokens num_assistant_tokens) front = true →
  is_dict ex = false
  ∨ (∃ messages,
       Py.getitem ex "messages" = Ok messages
       ∧ (Py.iter messages = Raise TypeError
          ∨ ∃ first later,
              Py.iter messages = Ok (first :: later)
              ∧ is_dict first = false)) →
  token_counts num_tokens num_assistant_tokens (front ++ ex :: rest)
  = Raise TypeError.
Proof.
  intros Hshape Hcount Hbad. apply count_examples_raises; [done..|].
  intros acc. unfold count_example.
  destruct Hbad as [Hex|(messages & Hget & [Hiter|(first & later & Hiter & Hfirst)])].
  - by destruct ex.
  - rewrite Hget. cbn [mbind result_bind]. by rewrite Hiter.
  - rewrite Hget. cbn [mbind result_bind]. rewrite Hiter.
    cbn [mbind result_bind any_role]. by destruct first.
Qed.

Lemma token_counts_type_errors_witness :
  token_counts sample_counter sample_assistant_counter
    ([sample_exchange] ++ JList [] :: [sample_exchange]) = Raise TypeError
  ∧ token_counts sample_counter sample_assistant_counter
      ([sample_exchange]
         ++ JDict (<["messages" := JStr "hello"]> ∅) :: [sample_exchange])
    = Raise TypeError.
Proof.
  split.
  - apply token_counts_type_errors; [reflexivity..|]. by left.
  - apply token_counts_type_errors; [reflexivity..|]. right.
    eexists. split; [reflexivity|]. right. by do 2 eexists.
Defined.

(** X14: the scans stop at the first system and the first user message, so
    what comes after them in the list of messages is never asked for its
    role: if both occur among leading messages that have a [role] entry,
    the record passes the loop when the counters accept it, with neither
    tally raised and all its elements counted as messages, whatever the
    remaining elements are. *)
Theorem scans_skip_later_messages
    (num_tokens num_assistant_tokens : json → result Z)
    (acc : TokenCounts) (entries : gmap string json)
    (front junk : list json) (total assistant : Z) :
  entries !! "messages" = Some (JList (front ++ junk)) →
  forallb has_role_key front = true →
  existsb (role_is "system") front = true →
  existsb (role_is "user") front = true →
  num_tokens (JList (front ++ junk)) = Ok total →
  num_assistant_tokens (JList (front ++ junk)) = Ok assistant →
  count_example num_tokens num_assistant_tokens acc (JDict entries)
  = Ok (mkTokenCounts (n_missing_system acc) (n_missing_user acc)
          (n_messages acc ++ [Z.of_nat (length front + length junk)])
          (convo_lens acc ++ [total])
          (assistant_message_lens acc ++ [assistant])).
Proof.
  intros Hmessages Hkeys Hsystem Huser Htotal Hassistant.
  unfold count_example. cbn [Py.getitem]. rewrite Hmessages.
  cbn [mbind result_bind Py.iter Py.len].
  rewrite !any_role_hit, Htotal, Hassistant by done.
  cbn [mbind result_bind]. by rewrite length_app.
Qed.

Lemma scans_skip_later_messages_witness :
  count_example flat_counter flat_counter no_counts
    (JDict (<["messages" :=
               JList ([message_dict "system" "Sys"; message_dict "user" "Hi"]
                        ++ [JNull; JInt 5])]> ∅))
  = Ok (mkTokenCounts 0 0 [4] [1] [1]).
Proof.
  apply (scans_skip_later_messages flat_counter flat_counter no_counts _
           [message_dict "system" "Sys"; message_dict "user" "Hi"]
           [JNull; JInt 5] 1 1); reflexivity.
Defined.

(** ** Writing and loading the file *)

Lemma file_lines_line_inv (text rest : string) (lines : list string) :
  file_lines (text +:+ newline +:+ rest) = (text +:+ newline) :: lines →
  no_line_break text = true ∧ file_lines rest = lines.
Proof.
  induction text as [|c text IH].
  - change (newline :: file_lines rest = newline :: lines → true = true ∧
            file_lines rest = lines).
    by intros [= ->].
  - change (String c text +:+ newline +:+ rest)
      with (String c (text +:+ newline +:+ rest)).
    change (String c text +:+ newline) with (String c (text +:+ newline)).
    cbn [file_lines no_line_break].
    destruct (Ascii.eqb c "010") eqn:Hlf.
    { intros [= _ Hempty _]. by destruct text. }
    destruct (Ascii.eqb c "013") eqn:Hcr.
    { apply Ascii.eqb_eq in Hcr as ->.
      destruct (text +:+ newline +:+ rest) as [|c' ?]; [by intros [=]|].
      by destruct (Ascii.eqb c' "010"); intros [=]. }
    destruct (file_lines (text +:+ newline +:+ rest)) as [|line more] eqn:Hlines.
    { intros [= Hempty _]. by destruct text. }
    intros [= -> ->]. by apply IH.
Qed.

Section file_facts.

Variable dumps : json → string.
Variable loads : string → result json.

Lemma record_lines_app (first second : list json) :
  record_lines dumps (first ++ second)
  = record_lines dumps first +:+ record_lines dumps second.
Proof.
  induction first as [|ddict first IH]; [done|].
  cbn [app record_lines]. by rewrite IH, !string_app_assoc.
Qed.

Lemma write_jsonl_lines (data_list : list json) :
  write_jsonl dumps data_list = record_lines dumps data_list.
Proof. unfold write_jsonl. by rewrite write_records_lines. Qed.

Lemma file_lines_records_then (data_list : list json) (rest : string) :
  Forall (λ ddict, no_line_break (dumps ddict) = true) data_list →
  file_lines (record_lines dumps data_list +:+ rest)
  = ((λ ddict, dumps ddict +:+ newline) <$> data_list) ++ file_lines rest.
Proof.
  induction 1 as [|ddict data_list Hbreak _ IH]; [done|].
  cbn [record_lines]. rewrite !string_app_assoc, file_lines_line by done.
  by rewrite IH.
Qed.

Lemma file_lines_records_inv (data_list : list json) :
  file_lines (record_lines dumps data_list)
    = (λ ddict, dumps ddict +:+ newline) <$> data_list →
  Forall (λ ddict, no_line_break (dumps ddict) = true) data_list.
Proof.
  induction data_list as [|ddict data_list IH]; [by constructor|].
  cbn [record_lines]. rewrite fmap_cons.
  intros [Hbreak Hrest]%file_lines_line_inv.
  constructor; [done | by apply IH].
Qed.

Lemma load_lines_app (front back : list string) :
  load_lines loads (front ++ back)
  = front' ← load_lines loads front;
    back' ← load_lines loads back;
    Ok (front' ++ back').
Proof.
  induction front as [|line front IH]; cbn [app load_lines].
  - cbn. by destruct (load_lines loads back).
  - destruct (loads line) as [record|]; [|done]. cbn [mbind result_bind].
    rewrite IH. destruct (load_lines loads front); [|done].
    cbn [mbind result_bind]. by destruct (load_lines loads back).
Qed.

Lemma load_lines_records (data_list : list json) :
  Forall (transported dumps loads) data_list →
  load_lines loads ((λ ddict, dumps ddict +:+ newline) <$> data_list)
  = Ok data_list.
Proof.
  induction 1 as [|ddict data_list [_ Hload] _ IH]; [done|].
  rewrite fmap_cons. cbn [load_lines]. rewrite Hload. cbn. by rewrite IH.
Qed.

End file_facts.

(** X15: writing the concatenation of two lists gives the content of the
    file of the first followed by the content of the file of the second,
    and loading the concatenation of two written files gives the records
    of the first followed by those of the second (for records the two
    library functions transport). *)
Theorem write_jsonl_app (dumps : json → string) (loads : string → result json)
    (first second : list json) :
  write_jsonl dumps (first ++ second)
    = write_jsonl dumps first +:+ write_jsonl dumps second
  ∧ (Forall (transported dumps loads) first →
     Forall (transported dumps loads) second →
     load_dataset loads (write_jsonl dumps first +:+ write_jsonl dumps second)
     = Ok (first ++ second)).
Proof.
  rewrite !write_jsonl_lines, record_lines_app. split; [done|].
  intros Hfirst Hsecond. unfold load_dataset.
  rewrite file_lines_records_then
    by (eapply Forall_impl; [exact Hfirst | by intros ? [? ?]]).
  rewrite file_lines_records
    by (eapply Forall_impl; [exact Hsecond | by intros ? [? ?]]).
  by rewrite load_lines_app, !load_lines_records.
Qed.

Lemma write_jsonl_app_witness :
  load_dataset Codec.loads
    (write_jsonl (Codec.dumps insertion_order) [sample_exchange]
     +:+ write_jsonl (Codec.dumps insertion_order) [sample_without_system])
  = Ok ([sample_exchange] ++ [sample_without_system]).
Proof.
  apply (write_jsonl_app (Codec.dumps insertion_order) Codec.loads);
    repeat constructor; vm_compute; reflexivity.
Defined.

(** X16: the lines of the written file are the serialized records, each
    with its newline, exactly when no serialized record holds a line feed
    or a carriage return of its own. *)
Theorem lines_are_records_iff (dumps : json → string) (data_list : list json) :
  file_lines (write_jsonl dumps data_list)
    = (λ ddict, dumps ddict +:+ newline) <$> data_list
  ↔ Forall (λ ddict, no_line_break (dumps ddict) = true) data_list.
Proof.
  rewrite write_jsonl_lines. split.
  - apply file_lines_records_inv.
  - apply file_lines_records.
Qed.

(** X17: a line that [json.loads] rejects, such as an empty line, makes
    the load of the whole file raise the error of that line, whatever the
    file holds after it; no record is returned. *)
Theorem load_fails_on_rejected_line (dumps : json → string)
    (loads : string → result json) (front : list json) (bad tail : string)
    (e : exn) :
  Forall (transported dumps loads) front →
  no_line_break bad = true →
  loads (bad +:+ newline) = Raise e →
  load_dataset loads (write_jsonl dumps front +:+ bad +:+ newline +:+ tail)
  = Raise e.
Proof.
  intros Hfront Hbreak Hbad. unfold load_dataset.
  rewrite write_jsonl_lines, file_lines_records_then
    by (eapply Forall_impl; [exact Hfront | by intros ? [? ?]]).
  rewrite file_lines_line by done.
  rewrite load_lines_app, load_lines_records by done.
  cbn [mbind result_bind load_lines]. by rewrite Hbad.
Qed.

Lemma load_fails_on_rejected_line_witness :
  load_dataset Codec.loads
    (write_jsonl (Codec.dumps insertion_order) [sample_exchange] +:+ "" +:+ newline
     +:+ write_jsonl (Codec.dumps insertion_order) [sample_exchange])
  = Raise JSONDecodeError.
Proof.
  apply (load_fails_on_rejected_line (Codec.dumps insertion_order) Codec.loads).
  - repeat constructor; vm_compute; reflexivity.
  - reflexivity.
  - reflexivity.
Defined.

(** ** The training and the validation set *)

(** X18: the training rows are the first 100 rows of the table and the
    validation rows the next 100, as far as the table goes: together they
    are its first 200 rows, no row is in both, and with at least 200 rows
    each set has 100 exchanges, the i-th one built from row i and from
    row 100 + i. *)
Theorem split_sets (data : list Row) :
  training_df data ++ validation_df data = take 200 data
  ∧ length (training_df data) = (100 `min` length data)%nat
  ∧ length (validation_df data) = (100 `min` (length data - 100))%nat
  ∧ (∀ i, training_df data !! i
          = if decide (i < 100)%nat then data !! i else None)
  ∧ (∀ i, validation_df data !! i
          = if decide (i < 100)%nat then data !! (100 + i)%nat else None)
  ∧ ((200 ≤ length data)%nat →
     length (training_data data) = 100%nat
     ∧ length (validation_data data) = 100%nat
     ∧ ∀ i, (i < 100)%nat →
         training_data data !! i = create_full_exchange <$> data !! i
         ∧ validation_data data !! i
           = create_full_exchange <$> data !! (100 + i)%nat).
Proof.
  unfold training_data, validation_data, training_df, validation_df, iloc.
  change (100 - 0)%nat with 100%nat. change (200 - 100)%nat with 100%nat.
  rewrite drop_0.
  split; [apply (take_take_drop data 100 100)|].
  split; [apply length_take|].
  split; [by rewrite length_take, length_drop|].
  split; [|split].
  - intros i. case_decide; [by apply lookup_take_lt|].
    apply lookup_ge_None. rewrite length_take. lia.
  - intros i. case_decide; [by rewrite lookup_take_lt, lookup_drop|].
    apply lookup_ge_None. rewrite length_take. lia.
  - intros Hrows. rewrite !length_fmap, !length_take, length_drop.
    split; [lia|]. split; [lia|]. intros i Hi.
    by rewrite !list_lookup_fmap, !lookup_take_lt, lookup_drop.
Qed.

Lemma split_sets_witness :
  length (training_data (sample_table 250)) = 100%nat
  ∧ length (validation_data (sample_table 250)) = 100%nat.
Proof.
  destruct (split_sets (sample_table 250)) as (_ & _ & _ & _ & _ & Hfull).
  destruct Hfull as (Htraining & Hvalidation & _).
  - unfold sample_table. rewrite length_replicate. lia.
  - by split.
Defined.

(** ** The loop on the exchanges the notebook builds *)

Lemma exchange_well_shaped (row : Row) :
  well_shaped (create_full_exchange row) = true
  ∧ lacks_role "system" (create_full_exchange row) = false
  ∧ lacks_role "user" (create_full_exchange row) = false
  ∧ length (messages_of (create_full_exchange row)) = 3%nat.
Proof. by repeat split. Qed.

(** X19: on the exchanges built from any rows, at least one, the cells
    run to the end whenever the counters accept the exchanges: no example
    is reported as missing a system or a user message, every example has 3
    messages, and for a set of 100 exchanges, as the notebook writes, the
    estimate uses the target of 3 epochs and charges three times the
    billable tokens. *)
Theorem built_exchanges_pass (check_errors : list json → list Issue)
    (num_tokens num_assistant_tokens : json → result Z) (rows : list Row) :
  rows ≠ [] →
  forallb (countable num_tokens num_assistant_tokens)
    (create_full_exchange <$> rows) = true →
  ∃ r, run_cells check_errors num_tokens num_assistant_tokens
         (create_full_exchange <$> rows) = Ok r
    ∧ n_missing_system (counts r) = 0
    ∧ n_missing_user (counts r) = 0
    ∧ n_messages (counts r) = replicate (length rows) 3
    ∧ (length rows = 100%nat →
       ce_n_epochs (cost r) = 3
       ∧ ce_charged_tokens (cost r) = 3 * ce_n_billing_tokens (cost r)).
Proof.
  intros Hne Hcount.
  assert (forallb well_shaped (create_full_exchange <$> rows) = true) as Hshape.
  { clear. induction rows as [|row rows IH]; [done|].
    rewrite fmap_cons. cbn [forallb]. rewrite IH.
    by destruct (exchange_well_shaped row) as (-> & _). }
  destruct (count_examples_total num_tokens num_assistant_tokens
              (create_full_exchange <$> rows) no_counts Hshape Hcount)
    as [c Hc].
  assert (create_full_exchange <$> rows ≠ []) as Hne'
    by (by destruct rows).
  destruct (cost_estimation_nonempty (create_full_exchange <$> rows)
              (convo_lens c) Hne') as (e & He & Hcost).
  eexists. split.
  { unfold run_cells, token_counts. rewrite Hc. cbn [mbind result_bind].
    rewrite Hcost. reflexivity. }
  cbn [counts cost ce_n_epochs ce_charged_tokens ce_n_billing_tokens].
  destruct (count_examples_Ok _ _ _ _ _ Hc) as (Hs & Hu & _).
  destruct (count_examples_lists _ _ _ _ _ Hc) as (Hn & _).
  rewrite Hs, Hu, Hn. cbn [no_counts n_missing_system n_missing_user n_messages].
  assert (∀ role, role = "system" ∨ role = "user" →
    sum_over (λ ex, Py.of_bool (lacks_role role ex))
      (create_full_exchange <$> rows) = 0) as Hnone.
  { intros role Hrole. clear -Hrole.
    induction rows as [|row rows IH]; [done|].
    rewrite fmap_cons. cbn [sum_over foldr].
    fold (sum_over (λ ex, Py.of_bool (lacks_role role ex))
            (create_full_exchange <$> rows)).
    rewrite IH. destruct (exchange_well_shaped row) as (_ & Hs & Hu & _).
    by destruct Hrole as [-> | ->]; rewrite ?Hs, ?Hu. }
  rewrite !Hnone by auto.
  split; [done|]. split; [done|]. split.
  - clear. induction rows as [|row rows IH]; [done|].
    rewrite fmap_cons. cbn [app] in *. rewrite fmap_cons, IH. done.
  - intros Hrows. rewrite length_fmap, Hrows in He.
    injection He as <-. by split.
Qed.

Lemma built_exchanges_pass_witness :
  ∃ r, run_cells (check_format_errors []) sample_counter
         sample_assistant_counter
         (create_full_exchange <$> sample_table 100) = Ok r
    ∧ n_missing_system (counts r) = 0
    ∧ ce_n_epochs (cost r) = 3.
Proof.
  destruct (built_exchanges_pass (check_format_errors []) sample_counter
              sample_assistant_counter (sample_table 100))
    as (r & Hrun & Hs & _ & _ & Hepochs).
  - discriminate.
  - vm_compute. reflexivity.
  - exists r. split; [exact Hrun|]. split; [exact Hs|].
    by destruct Hepochs as [-> _].
Defined.

(** ** What an exchange keeps of its row *)

Lemma string_app_inj_r (s t u : string) : s +:+ u = t +:+ u → s = t.
Proof.
  revert t. induction s as [|c s IH]; intros [|c' t] Heq.
  - done.
  - apply (f_equal String.length) in Heq.
    rewrite !CodecFacts.string_length_app in Heq. simpl in Heq. lia.
  - apply (f_equal String.length) in Heq.
    rewrite !CodecFacts.string_length_app in Heq. simpl in Heq. lia.
  - injection Heq as -> Heq. f_equal. by apply IH.
Qed.

(** X20: an exchange determines the review it was built from, and the
    assistant message; for rows with the same rating it determines the
    sentiment too, so that two such rows with the same exchange are the
    same row. *)
Theorem exchange_keeps_fields (row row' : Row) :
  create_full_exchange row = create_full_exchange row' →
  Review row = Review row'
  ∧ create_assistant_message row = create_assistant_message row'
  ∧ (Rating row = Rating row' → row = row').
Proof.
  intros Heq.
  assert (messages_of (create_full_exchange row)
          = messages_of (create_full_exchange row')) as Hmessages
    by by rewrite Heq.
  change (messages_of (create_full_exchange ?r))
    with [message_dict "system" system_message;
          message_dict "user" (create_user_message r);
          message_dict "assistant" (create_assistant_message r)]
    in Hmessages.
  pose (content_at := λ (i : nat) (l : list json),
          match Py.getitem (default JNull (l !! i)) "content" with
          | Ok (JStr s) => s
          | _ => ""
          end).
  assert (create_user_message row = create_user_message row') as Huser
    by exact (f_equal (content_at 1%nat) Hmessages).
  assert (create_assistant_message row = create_assistant_message row')
    as Hassistant by exact (f_equal (content_at 2%nat) Hmessages).
  split; [by apply (inj (String.app "Review: ")) in Huser|].
  split; [done|]. intros Hrating.
  apply (inj (String.app "Review: ")) in Huser.
  unfold create_assistant_message in Hassistant. rewrite Hrating in Hassistant.
  repeat (apply String.app_inj in Hassistant).
  apply string_app_inj_r in Hassistant.
  destruct row, row'. simpl in *. by subst.
Qed.

Lemma exchange_keeps_fields_witness :
  Review sample_row = Review sample_row.
Proof.
  by destruct (exchange_keeps_fields sample_row sample_row eq_refl) as (H & _).
Defined.

(** X21: the assistant message interpolates the rating and the sentiment
    as they are, without escaping a quote: a sentiment that holds a quote
    gives the same message, and the same exchange, as another row whose
    rating takes over the text up to that quote, so the message alone does
    not tell the two fields apart. *)
Theorem assistant_message_not_escaped (review rating before after : string) :
  let glue := ", " +:+ dquote +:+ "Sentiment" +:+ dquote +:+ ": " +:+ dquote in
  let row := mkRow review rating (before +:+ dquote +:+ glue +:+ after) in
  let row' := mkRow review (rating +:+ glue +:+ before +:+ dquote) after in
  row ≠ row'
  ∧ create_assistant_message row = create_assistant_message row'
  ∧ create_full_exchange row = create_full_exchange row'.
Proof.
  intros glue row row'.
  assert (create_assistant_message row = create_assistant_message row') as Heq.
  { unfold create_assistant_message, row, row', glue. cbn [Rating Sentiment].
    by rewrite !string_app_assoc. }
  split; [|split; [exact Heq|]].
  - intros Hrows. apply (f_equal Rating) in Hrows. cbn in Hrows.
    apply (f_equal String.length) in Hrows.
    rewrite !CodecFacts.string_length_app in Hrows. cbn in Hrows. lia.
  - unfold create_full_exchange. by rewrite Heq.
Qed.
